(** * fiano: FFS file codec ([pkg/uefi/file.go]) and CBFS payload records
    ([pkg/cbfs/payload.go])

    A shallow embedding of the two Go files and the properties of their
    specification.  Unsigned Go integers are values of [Z] with the
    wrap-around of every operation written out; byte buffers are lists of
    [Byte.byte]; a Go call that can panic or whose loop is run on fuel returns
    an [Outcome]. *)

From Stdlib Require Import String Ascii ZArith List Lia Bool.
From Stdlib Require Import Strings.Byte.
From Stdlib Require Import Sorting.Permutation.
Import ListNotations.

Local Open Scope Z_scope.

(** ** Machine integers and bytes *)

Abbreviation byte := Corelib.Init.Byte.byte.

Definition u8 (z : Z) : Z := z mod 256.
Definition u64 (z : Z) : Z := z mod 2 ^ 64.

(** [int64(x)] of a value computed without bounds. *)
Definition i64 (z : Z) : Z := (z + 2 ^ 63) mod 2 ^ 64 - 2 ^ 63.

Definition b2z (b : byte) : Z := Z.of_N (Byte.to_N b).

Definition z2b (z : Z) : byte :=
  match Byte.of_N (Z.to_N (u8 z)) with
  | Some b => b
  | None => Byte.x00
  end.

(** Little-endian and big-endian readings of a run of bytes, and the
    little-endian writing of an integer on [n] bytes, as [encoding/binary]
    does for fixed-width unsigned fields. *)
Fixpoint le_decode (bs : list byte) : Z :=
  match bs with
  | [] => 0
  | b :: bs' => b2z b + 256 * le_decode bs'
  end.

Fixpoint le_encode (n : nat) (z : Z) : list byte :=
  match n with
  | O => []
  | S n' => z2b z :: le_encode n' (z / 256)
  end.

Definition be_decode (bs : list byte) : Z := le_decode (rev bs).

(** ** Results of Go calls *)

(** A Go call returns, panics (a slice expression or an index out of range),
    or, for a loop run on fuel, uses its fuel up. *)
Inductive Outcome (A : Type) : Type :=
| Returns (a : A)
| Panics
| OutOfFuel.

Arguments Returns {A} a.
Arguments Panics {A}.
Arguments OutOfFuel {A}.

Definition obind {A B} (m : Outcome A) (k : A -> Outcome B) : Outcome B :=
  match m with
  | Returns a => k a
  | Panics => Panics
  | OutOfFuel => OutOfFuel
  end.

Notation "x <- m ;; k" := (obind m (fun x => k))
  (at level 61, m at next level, right associativity).

(** [s[:n]] and [s[n:]]: a panic when [n] is beyond the slice (the capacity is
    taken to be the length). *)
Definition slice_to (s : list byte) (n : Z) : Outcome (list byte) :=
  if (n <? 0) || (Z.of_nat (length s) <? n) then Panics
  else Returns (firstn (Z.to_nat n) s).

Definition slice_from (s : list byte) (n : Z) : Outcome (list byte) :=
  if (n <? 0) || (Z.of_nat (length s) <? n) then Panics
  else Returns (skipn (Z.to_nat n) s).

(** [make([]byte, n)]: [n] zero bytes; a length that does not fit an [int]
    panics. *)
Definition make_bytes (n : Z) : Outcome (list byte) :=
  if (n <? 0) || (2 ^ 63 <=? n) then Panics
  else Returns (repeat Byte.x00 (Z.to_nat n)).

Fixpoint bytes_eqb (a b : list byte) : bool :=
  match a, b with
  | [], [] => true
  | x :: a', y :: b' => Byte.eqb x y && bytes_eqb a' b'
  | _, _ => false
  end.

(** Modelled from the spec: [Checksum8], of the repository's utility file,
    which is not among the sources.  "Additive sum of bytes modulo 256.  Empty
    input yields 0." *)
Definition Checksum8 (buf : list byte) : Z :=
  fold_left (fun sum val => u8 (sum + b2z val)) buf 0.

(** Go's [[3]uint8]. *)
Definition ThreeUint8 : Type := (Z * Z * Z)%type.

Definition ThreeUint8_eqb (a b : ThreeUint8) : bool :=
  let '(a0, a1, a2) := a in
  let '(b0, b1, b2) := b in
  (a0 =? b0) && (a1 =? b1) && (a2 =? b2).

(** Modelled from the spec: [Read3Size], of the same utility file.
    "Interprets three bytes little-endian as a 24-bit unsigned integer." *)
Definition Read3Size (size : ThreeUint8) : Z :=
  let '(s0, s1, s2) := size in
  s0 + 256 * s1 + 65536 * s2.

(** Modelled from the spec: [Write3Size], of the same utility file.  "Writes
    the low 24 bits; inputs exceeding 0xFFFFFF are saturated to 0xFFFFFF." *)
Definition Write3Size (size : Z) : ThreeUint8 :=
  if 0xFFFFFF <? size then (0xFF, 0xFF, 0xFF)
  else (u8 size, u8 (size / 256), u8 (size / 65536)).

(** Modelled from the spec: [Align4], of the same utility file.  "Returns the
    smallest multiple of 4 >= x", on 64 bits. *)
Definition Align4 (x : Z) : Z := u64 ((x + 3) / 4 * 4).

(** The sum of the bytes of a buffer, without wrap-around. *)
Fixpoint sumZ (l : list byte) : Z :=
  match l with
  | [] => 0
  | b :: l' => b2z b + sumZ l'
  end.

(** * Package [uefi]: [file.go] *)

Module uefi.

(** ** File types *)

Definition FVFileType : Type := Z.

Definition FVFileTypeAll : FVFileType := 0.
Definition FVFileTypeRaw : FVFileType := 1.
Definition FVFileTypeFreeForm : FVFileType := 2.
Definition FVFileTypeSECCore : FVFileType := 3.
Definition FVFileTypePEICore : FVFileType := 4.
Definition FVFileTypeDXECore : FVFileType := 5.
Definition FVFileTypePEIM : FVFileType := 6.
Definition FVFileTypeDriver : FVFileType := 7.
Definition FVFileTypeCombinedPEIMDriver : FVFileType := 8.
Definition FVFileTypeApplication : FVFileType := 9.
Definition FVFileTypeSMM : FVFileType := 10.
Definition FVFileTypeVolumeImage : FVFileType := 11.
Definition FVFileTypeCombinedSMMDXE : FVFileType := 12.
Definition FVFileTypeSMMCore : FVFileType := 13.
Definition FVFileTypeSMMStandalone : FVFileType := 14.
Definition FVFileTypeSMMCoreStandalone : FVFileType := 15.
Definition FVFileTypeOEMMin : FVFileType := 0xC0.
Definition FVFileTypeOEMMax : FVFileType := 0xDF.
Definition FVFileTypeDebugMin : FVFileType := 0xE0.
Definition FVFileTypeDebugMax : FVFileType := 0xEF.
Definition FVFileTypePad : FVFileType := 0xF0.
Definition FVFileTypeFFSMin : FVFileType := 0xF0.
Definition FVFileTypeFFSMax : FVFileType := 0xFF.

(** A Go map with integer keys, as an association list read from the front. *)
Fixpoint map_get {V : Type} (m : list (Z * V)) (k : Z) : option V :=
  match m with
  | [] => None
  | (k', v) :: m' => if k' =? k then Some v else map_get m' k
  end.

Definition SupportedFiles : list (FVFileType * bool) :=
  [ (FVFileTypeRaw, false);
    (FVFileTypeFreeForm, true);
    (FVFileTypeSECCore, true);
    (FVFileTypePEICore, true);
    (FVFileTypeDXECore, true);
    (FVFileTypeDriver, true);
    (FVFileTypeCombinedPEIMDriver, true);
    (FVFileTypeApplication, true);
    (FVFileTypeSMM, true);
    (FVFileTypeVolumeImage, true);
    (FVFileTypeCombinedSMMDXE, true);
    (FVFileTypeSMMCore, true);
    (FVFileTypeSMMStandalone, true);
    (FVFileTypeSMMCoreStandalone, true) ].

(** [SupportedFiles[t]]: the zero value [false] for a missing key. *)
Definition SupportedFiles_at (t : FVFileType) : bool :=
  match map_get SupportedFiles t with
  | Some b => b
  | None => false
  end.

Definition fileTypeNames : list (FVFileType * string) :=
  [ (FVFileTypeRaw, "EFI_FV_FILETYPE_RAW");
    (FVFileTypeFreeForm, "EFI_FV_FILETYPE_FREEFORM");
    (FVFileTypeSECCore, "EFI_FV_FILETYPE_SECURITY_CORE");
    (FVFileTypePEICore, "EFI_FV_FILETYPE_PEI_CORE");
    (FVFileTypeDXECore, "EFI_FV_FILETYPE_DXE_CORE");
    (FVFileTypePEIM, "EFI_FV_FILETYPE_PEIM");
    (FVFileTypeDriver, "EFI_FV_FILETYPE_DRIVER");
    (FVFileTypeCombinedPEIMDriver, "EFI_FV_FILETYPE_COMBINED_PEIM_DRIVER");
    (FVFileTypeApplication, "EFI_FV_FILETYPE_APPLICATION");
    (FVFileTypeSMM, "EFI_FV_FILETYPE_MM");
    (FVFileTypeVolumeImage, "EFI_FV_FILETYPE_FIRMWARE_VOLUME_IMAGE");
    (FVFileTypeCombinedSMMDXE, "EFI_FV_FILETYPE_COMBINED_MM_DXE");
    (FVFileTypeSMMCore, "EFI_FV_FILETYPE_MM_CORE");
    (FVFileTypeSMMStandalone, "EFI_FV_FILETYPE_MM_STANDALONE");
    (FVFileTypeSMMCoreStandalone, "EFI_FV_FILETYPE_MM_CORE_STANDALONE") ]%string.

Definition hex_digit (d : Z) : string :=
  String.substring (Z.to_nat d) 1 "0123456789abcdef".

(** [fmt.Sprintf("%#x", uint8(f))]. *)
Definition fmt_hex_uint8 (f : Z) : string :=
  String.append "0x"
    (if f <? 16 then hex_digit f
     else String.append (hex_digit (f / 16)) (hex_digit (f mod 16))).

Definition FVFileType_String (f : FVFileType) : string :=
  if (FVFileTypeOEMMin <=? f) && (f <=? FVFileTypeOEMMax) then
    ("EFI_FV_FILETYPE_OEM (" ++ fmt_hex_uint8 f ++ ")")%string
  else if (FVFileTypeDebugMin <=? f) && (f <=? FVFileTypeDebugMax) then
    ("EFI_FV_FILETYPE_DEBUG (" ++ fmt_hex_uint8 f ++ ")")%string
  else if (FVFileTypeFFSMin <? f) && (f <=? FVFileTypeFFSMax) then
    ("EFI_FV_FILETYPE_FFS (" ++ fmt_hex_uint8 f ++ ")")%string
  else if f =? FVFileTypePad then "EFI_FV_FILETYPE_FFS_PAD"%string
  else match map_get fileTypeNames f with
       | Some t => t
       | None => "UNKNOWN"%string
       end.

(** ** Stock GUIDs, alignments, constants *)

(** [guid.GUID] is an array of 16 bytes. *)
Definition GUID_t : Type := list byte.

Definition ZeroGUID : GUID_t := repeat Byte.x00 16.
Definition FFGUID : GUID_t := repeat Byte.xff 16.

Definition fileAlignments : list Z :=
  [ 1; 16; 128; 512; 1024; 4 * 1024; 32 * 1024; 64 * 1024; 128 * 1024;
    256 * 1024; 512 * 1024; 1024 * 1024; 2 * 1024 * 1024; 4 * 1024 * 1024;
    8 * 1024 * 1024; 16 * 1024 * 1024 ].

Definition FileHeaderMinLength : Z := 0x18.
Definition FileHeaderExtMinLength : Z := 0x20.
Definition EmptyBodyChecksum : Z := 0xAA.

Definition FileState : Type := Z.
Definition FileStateHeaderConstruction : FileState := 0x01.
Definition FileStateHeaderValid : FileState := 0x02.
Definition FileStateDataValid : FileState := 0x04.
Definition FileStateMarkeForUpdate : FileState := 0x08.
Definition FileStateDeleted : FileState := 0x10.
Definition FileStateHeaderInvalid : FileState := 0x20.
Definition FileStateValid : FileState :=
  Z.lor (Z.lor FileStateHeaderConstruction FileStateHeaderValid) FileStateDataValid.

(** ** Headers and files *)

Definition fileAttr : Type := Z.

Record IntegrityCheck : Type := mkIntegrityCheck {
  IC_Header : Z;
  IC_File : Z
}.

Record FileHeader : Type := mkFileHeader {
  GUID : GUID_t;
  Checksum : IntegrityCheck;
  Type_ : FVFileType;
  Attributes : fileAttr;
  Size : ThreeUint8;
  State : FileState
}.

(** The embedded [FileHeader] followed by the 64-bit size. *)
Record FileHeaderExtended : Type := mkFileHeaderExtended {
  FileHeader_ : FileHeader;
  ExtendedSize : Z
}.

Inductive error : Type :=
| EOF
| ErrUnexpectedEOF
| ErrHeaderWrite (g : GUID_t) (e : error)
| ErrPadTooSmall (min requested : Z)
| ErrErasePolarity (polarity : Z)
| ErrFileTooBig (g : GUID_t) (extended buflen : Z)
| ErrSections (g : GUID_t) (e : error)
| ErrSectionLength (g : GUID_t)
| ErrExternal (msg : string).

Definition IsLarge (a : fileAttr) : bool := negb (Z.land a 0x01 =? 0).

Definition alignVal (a : fileAttr) : Z :=
  let alignVal := Z.shiftr (Z.land a 0x38) 3 in
  Z.lor alignVal (u8 (Z.shiftl (Z.land a 0x02) 2)).

(** The table lookup panics on an index out of range. *)
Definition GetAlignment (a : fileAttr) : Outcome Z :=
  match nth_error fileAlignments (Z.to_nat (alignVal a)) with
  | Some v => Returns v
  | None => Panics
  end.

Definition setLarge (a : fileAttr) (large : bool) : fileAttr :=
  if large then Z.lor a 0x01 else Z.land a 0xFE.

Definition HasChecksum (a : fileAttr) : bool := negb (Z.land a 0x40 =? 0).

Definition set_GUID (fh : FileHeader) (g : GUID_t) : FileHeader :=
  mkFileHeader g (Checksum fh) (Type_ fh) (Attributes fh) (Size fh) (State fh).
Definition set_Checksum (fh : FileHeader) (c : IntegrityCheck) : FileHeader :=
  mkFileHeader (GUID fh) c (Type_ fh) (Attributes fh) (Size fh) (State fh).
Definition set_Type (fh : FileHeader) (t : FVFileType) : FileHeader :=
  mkFileHeader (GUID fh) (Checksum fh) t (Attributes fh) (Size fh) (State fh).
Definition set_Attributes (fh : FileHeader) (a : fileAttr) : FileHeader :=
  mkFileHeader (GUID fh) (Checksum fh) (Type_ fh) a (Size fh) (State fh).
Definition set_Size (fh : FileHeader) (s : ThreeUint8) : FileHeader :=
  mkFileHeader (GUID fh) (Checksum fh) (Type_ fh) (Attributes fh) s (State fh).
Definition set_State (fh : FileHeader) (s : FileState) : FileHeader :=
  mkFileHeader (GUID fh) (Checksum fh) (Type_ fh) (Attributes fh) (Size fh) s.

(** [binary.Write] of a header into a fresh [bytes.Buffer], little-endian:
    every field has a fixed size, so no error arises. *)
Definition encode_FileHeader (fh : FileHeader) : list byte :=
  GUID fh ++
  [ z2b (IC_Header (Checksum fh)); z2b (IC_File (Checksum fh));
    z2b (Type_ fh); z2b (Attributes fh) ] ++
  (let '(s0, s1, s2) := Size fh in [ z2b s0; z2b s1; z2b s2 ]) ++
  [ z2b (State fh) ].

Definition binary_Write_FileHeader (fh : FileHeader) : list byte + error :=
  inl (encode_FileHeader fh).

Definition binary_Write_FileHeaderExtended (fh : FileHeaderExtended)
  : list byte + error :=
  inl (encode_FileHeader (FileHeader_ fh) ++ le_encode 8 (ExtendedSize fh)).

(** [binary.Read] of [n] bytes from a [bytes.Reader] with [r] left to read:
    the bytes and the rest, [io.EOF] when nothing is left and
    [io.ErrUnexpectedEOF] when too little is. *)
Definition binary_Read (r : list byte) (n : nat)
  : (list byte * list byte) + error :=
  match r with
  | [] => inr EOF
  | _ => if (length r <? n)%nat then inr ErrUnexpectedEOF
         else inl (firstn n r, skipn n r)
  end.

Definition byte_at (bs : list byte) (i : nat) : Z := b2z (nth i bs Byte.x00).

Definition decode_FileHeader (bs : list byte) : FileHeader :=
  mkFileHeader (firstn 16 bs)
    (mkIntegrityCheck (byte_at bs 16) (byte_at bs 17))
    (byte_at bs 18) (byte_at bs 19)
    (byte_at bs 20, byte_at bs 21, byte_at bs 22)
    (byte_at bs 23).

Section Files.

(** The collaborators of [file.go] that live in other files of the package:
    sections ([NewSection], and the size a decoded section reports), the NVRAM
    store ([NewNVarStore], and the GUID [NVAR] that announces one), and the
    two package-level settings [Attributes.ErasePolarity] and [ReadOnly]. *)
Variable Section_ : Type.
Variable Section_ExtendedSize : Section_ -> Z.
Variable NVarStore_ : Type.
Variable NewSection : list byte -> Z -> Section_ + error.
Variable NewNVarStore : list byte -> option NVarStore_ * option error.
Variable NVAR : GUID_t.
Variable ErasePolarity : Z.
Variable ReadOnly : bool.

Record File : Type := mkFile {
  Header : FileHeaderExtended;
  Type_str : string;
  Sections : list Section_;
  NVarStore : option NVarStore_;
  buf : list byte;
  ExtractPath : string;
  DataOffset : Z
}.

Definition fh_of (f : File) : FileHeader := FileHeader_ (Header f).

Definition with_Header (f : File) (h : FileHeaderExtended) : File :=
  mkFile h (Type_str f) (Sections f) (NVarStore f) (buf f) (ExtractPath f)
    (DataOffset f).
Definition with_fh (f : File) (fh : FileHeader) : File :=
  with_Header f (mkFileHeaderExtended fh (ExtendedSize (Header f))).
Definition with_ExtendedSize (f : File) (n : Z) : File :=
  with_Header f (mkFileHeaderExtended (fh_of f) n).
Definition with_Type_str (f : File) (t : string) : File :=
  mkFile (Header f) t (Sections f) (NVarStore f) (buf f) (ExtractPath f)
    (DataOffset f).
Definition with_Sections (f : File) (ss : list Section_) : File :=
  mkFile (Header f) (Type_str f) ss (NVarStore f) (buf f) (ExtractPath f)
    (DataOffset f).
Definition with_NVarStore (f : File) (ns : option NVarStore_) : File :=
  mkFile (Header f) (Type_str f) (Sections f) ns (buf f) (ExtractPath f)
    (DataOffset f).
Definition with_DataOffset (f : File) (d : Z) : File :=
  mkFile (Header f) (Type_str f) (Sections f) (NVarStore f) (buf f)
    (ExtractPath f) d.

(** [File{}]. *)
Definition File_zero : File :=
  mkFile
    (mkFileHeaderExtended
       (mkFileHeader ZeroGUID (mkIntegrityCheck 0 0) 0 0 (0, 0, 0) 0) 0)
    EmptyString [] None [] EmptyString 0.

Definition SetState (fh : FileHeader) (s : FileState) : FileHeader :=
  set_State fh (Z.lxor s ErasePolarity).

Definition HeaderLen (f : File) : Z :=
  if IsLarge (Attributes (fh_of f)) then FileHeaderExtMinLength
  else FileHeaderMinLength.

Definition ChecksumHeader (f : File) : Outcome Z :=
  let fh := fh_of f in
  let headerSize :=
    if IsLarge (Attributes fh) then FileHeaderExtMinLength
    else FileHeaderMinLength in
  b <- slice_to (buf f) headerSize ;;
  let sum := Checksum8 b in
  let sum := u8 (sum - IC_File (Checksum fh)) in
  let sum := u8 (sum - State fh) in
  Returns sum.

Definition Buf (f : File) : list byte := buf f.

Definition SetBuf (f : File) (b : list byte) : File :=
  mkFile (Header f) (Type_str f) (Sections f) (NVarStore f) b (ExtractPath f)
    (DataOffset f).

Definition SetSize (f : File) (size : Z) (resizeFile : bool) : File :=
  let f := with_ExtendedSize f size in
  let f := with_fh f (set_Attributes (fh_of f)
                        (setLarge (Attributes (fh_of f)) false)) in
  let f :=
    if 0xFFFFFF <? ExtendedSize (Header f) then
      let f :=
        if resizeFile then
          with_ExtendedSize f
            (u64 (ExtendedSize (Header f)
                  + (FileHeaderExtMinLength - FileHeaderMinLength)))
        else f in
      with_fh f (set_Attributes (fh_of f)
                   (setLarge (Attributes (fh_of f)) true))
    else f in
  with_fh f (set_Size (fh_of f) (Write3Size (ExtendedSize (Header f)))).

Definition set_IC_Header (f : File) (v : Z) : File :=
  with_fh f (set_Checksum (fh_of f)
               (mkIntegrityCheck v (IC_File (Checksum (fh_of f))))).
Definition set_IC_File (f : File) (v : Z) : File :=
  with_fh f (set_Checksum (fh_of f)
               (mkIntegrityCheck (IC_Header (Checksum (fh_of f))) v)).

(** The file after the call, and the error returned ([None] for [nil]). *)
Definition ChecksumAndAssemble (f : File) (fileData : list byte)
  : Outcome (File * option error) :=
  match binary_Write_FileHeaderExtended (Header f) with
  | inr err => Returns (f, Some (ErrHeaderWrite (GUID (fh_of f)) err))
  | inl header =>
      let f := SetBuf f header in
      sum <- ChecksumHeader f ;;
      let f := set_IC_Header f (u8 (IC_Header (Checksum (fh_of f)) - sum)) in
      let f := set_IC_File f EmptyBodyChecksum in
      let f :=
        if HasChecksum (Attributes (fh_of f)) then
          set_IC_File f (u8 (0 - Checksum8 fileData))
        else f in
      match
        (if IsLarge (Attributes (fh_of f)) then
           binary_Write_FileHeaderExtended (Header f)
         else binary_Write_FileHeader (fh_of f))
      with
      | inr err => Returns (f, Some err)
      | inl header =>
          let f := SetBuf f header in
          let f := SetBuf f (buf f ++ fileData) in
          Returns (f, None)
      end
  end.

(** The pointer to the file ([None] for [nil]) and the error. *)
Definition CreatePadFile (size : Z) : Outcome (option File * option error) :=
  if size <? FileHeaderMinLength then
    Returns (None, Some (ErrPadTooSmall FileHeaderMinLength size))
  else
    let f := File_zero in
    match
      (if (ErasePolarity =? 0xFF) || true then inl FFGUID
       else if ErasePolarity =? 0 then inl ZeroGUID
       else inr (ErrErasePolarity ErasePolarity))
    with
    | inr err => Returns (None, Some err)
    | inl g =>
        let f := with_fh f (set_GUID (fh_of f) g) in
        let f := with_fh f (set_Attributes (fh_of f) 0) in
        let f := SetSize f size false in
        let f := with_fh f (set_Type (fh_of f) FVFileTypePad) in
        let f := with_Type_str f (FVFileType_String (Type_ (fh_of f))) in
        fileData <- make_bytes (u64 (size - FileHeaderMinLength)) ;;
        fileData <-
          (if IsLarge (Attributes (fh_of f)) then
             make_bytes (u64 (size - FileHeaderExtMinLength))
           else Returns fileData) ;;
        let fileData := map (fun _ => z2b ErasePolarity) fileData in
        let f := with_fh f (SetState (fh_of f) FileStateValid) in
        r <- ChecksumAndAssemble f fileData ;;
        match r with
        | (_, Some err) => Returns (None, Some err)
        | (f, None) => Returns (Some f, None)
        end
    end.

(** [copy(dst, src)]. *)
Definition copy_bytes (dst src : list byte) : list byte :=
  firstn (length dst) src ++ skipn (length src) dst.

(** The section walk of [NewFile]: [i] and [offset] are the loop variables,
    the fuel bounds the number of rounds. *)
Fixpoint parseSections (fuel : nat) (f : File) (i offset : Z)
  : Outcome (option File * option error) :=
  if offset <? ExtendedSize (Header f) then
    match fuel with
    | O => OutOfFuel
    | S fuel' =>
        b <- slice_from (buf f) offset ;;
        match NewSection b i with
        | inr err => Returns (None, Some (ErrSections (GUID (fh_of f)) err))
        | inl s =>
            if Section_ExtendedSize s =? 0 then
              Returns (None, Some (ErrSectionLength (GUID (fh_of f))))
            else
              let offset := u64 (offset + u64 (Section_ExtendedSize s)) in
              let offset := Align4 offset in
              parseSections fuel' (with_Sections f (Sections f ++ [s]))
                (i + 1) offset
        end
    end
  else Returns (Some f, None).

(** [NewFile] from the size check on: [f] has its header and sizes set.  An
    error of [NewNVarStore] is logged and dropped; the store it returns is
    kept either way. *)
Definition NewFile_body (f : File) (b : list byte)
  : Outcome (option File * option error) :=
  let buflen := Z.of_nat (length b) in
  if buflen <? ExtendedSize (Header f) then
    Returns (None,
             Some (ErrFileTooBig (GUID (fh_of f)) (ExtendedSize (Header f))
                     buflen))
  else
    fbuf <-
      (if ReadOnly then slice_to b (ExtendedSize (Header f))
       else
         newBuf <- slice_to b (ExtendedSize (Header f)) ;;
         fresh <- make_bytes (ExtendedSize (Header f)) ;;
         Returns (copy_bytes fresh newBuf)) ;;
    let f := SetBuf f fbuf in
    f <-
      (if (Type_ (fh_of f) =? FVFileTypeRaw) && bytes_eqb (GUID (fh_of f)) NVAR
       then
         body <- slice_from (buf f) (DataOffset f) ;;
         let '(ns, _) := NewNVarStore body in
         Returns (with_NVarStore f ns)
       else Returns f) ;;
    if negb (SupportedFiles_at (Type_ (fh_of f))) then Returns (Some f, None)
    else parseSections (length (buf f)) f 0 (DataOffset f).

(** The pointer to the file and the error: [(None, None)] is [nil, nil],
    the start of the free space. *)
Definition NewFile (b : list byte) : Outcome (option File * option error) :=
  let f := with_DataOffset File_zero FileHeaderMinLength in
  match binary_Read b 24 with
  | inr err => Returns (None, Some err)
  | inl (hdr, r) =>
      let f := with_fh f (decode_FileHeader hdr) in
      let f := with_Type_str f (FVFileType_String (Type_ (fh_of f))) in
      if ThreeUint8_eqb (Size (fh_of f)) (0xFF, 0xFF, 0xFF) then
        match binary_Read r 8 with
        | inr err => Returns (None, Some err)
        | inl (ext, _) =>
            let f := with_ExtendedSize f (le_decode ext) in
            if ExtendedSize (Header f) =? 0xFFFFFFFFFFFFFFFF then
              Returns (None, None)
            else NewFile_body (with_DataOffset f FileHeaderExtMinLength) b
        end
      else
        NewFile_body (with_ExtendedSize f (Read3Size (Size (fh_of f)))) b
  end.

End Files.

Arguments mkFile {Section_ NVarStore_}.
Arguments SetBuf {Section_ NVarStore_} f b.
Arguments Buf {Section_ NVarStore_} f.
Arguments with_Header {Section_ NVarStore_} f h.
Arguments with_fh {Section_ NVarStore_} f fh.
Arguments with_ExtendedSize {Section_ NVarStore_} f n.
Arguments with_Type_str {Section_ NVarStore_} f t.
Arguments with_Sections {Section_ NVarStore_} f ss.
Arguments with_NVarStore {Section_ NVarStore_} f ns.
Arguments with_DataOffset {Section_ NVarStore_} f d.
Arguments set_IC_Header {Section_ NVarStore_} f v.
Arguments set_IC_File {Section_ NVarStore_} f v.
Arguments File_zero {Section_ NVarStore_}.
Arguments Header {Section_ NVarStore_} f.
Arguments Type_str {Section_ NVarStore_} f.
Arguments Sections {Section_ NVarStore_} f.
Arguments NVarStore {Section_ NVarStore_} f.
Arguments buf {Section_ NVarStore_} f.
Arguments ExtractPath {Section_ NVarStore_} f.
Arguments DataOffset {Section_ NVarStore_} f.
Arguments fh_of {Section_ NVarStore_} f.
Arguments HeaderLen {Section_ NVarStore_} f.
Arguments ChecksumHeader {Section_ NVarStore_} f.
Arguments SetSize {Section_ NVarStore_} f size resizeFile.
Arguments ChecksumAndAssemble {Section_ NVarStore_} f fileData.

(** ** Notions used in the statements *)

(** The bytes of a header in the shape its large bit dictates. *)
Definition header_bytes (h : FileHeaderExtended) : list byte :=
  if IsLarge (Attributes (FileHeader_ h)) then
    encode_FileHeader (FileHeader_ h) ++ le_encode 8 (ExtendedSize h)
  else encode_FileHeader (FileHeader_ h).

(** What is checked of the alignment index of each attribute value. *)
Definition alignment_checks (a : Z) : bool :=
  (0 <=? alignVal a) && (alignVal a <=? 15)
  && (Z.land (alignVal a) 7 =? Z.land (Z.shiftr a 3) 7)
  && Bool.eqb (Z.testbit (alignVal a) 3) (Z.testbit a 1)
  && match nth_error fileAlignments (Z.to_nat (alignVal a)) with
     | Some _ => true
     | None => false
     end.

(** A raw file of 26 bytes, body checksum required, not yet assembled. *)
Definition example_file : File unit unit :=
  mkFile
    (mkFileHeaderExtended
       (mkFileHeader FFGUID (mkIntegrityCheck 0 0) FVFileTypeRaw 0x40
          (0x1A, 0, 0) 0xF8) 0x1A)
    "EFI_FV_FILETYPE_RAW" [] None [] EmptyString 24.

(** The sum [ChecksumHeader] takes over the bytes [hb] of a header. *)
Definition header_sum (fh : FileHeader) (hb : list byte) : Z :=
  u8 (u8 (Checksum8 hb - IC_File (Checksum fh)) - State fh).

(** A result with a file and no error, or with an error and no file. *)
Inductive file_or_error {Section_ NVarStore_ : Type}
  : option (File Section_ NVarStore_) * option error -> Prop :=
| is_file f : file_or_error (Some f, None)
| is_error e : file_or_error (None, Some e).

(** The extended size [NewFile] decodes from a window: the eight bytes after
    the header when the 3-byte size is [{0xFF,0xFF,0xFF}], the 3-byte size
    otherwise; none when a read fails. *)
Definition decoded_ExtendedSize (b : list byte) : option Z :=
  match binary_Read b 24 with
  | inr _ => None
  | inl (hdr, r) =>
      if ThreeUint8_eqb (Size (decode_FileHeader hdr)) (0xFF, 0xFF, 0xFF) then
        match binary_Read r 8 with
        | inr _ => None
        | inl (ext, _) => Some (le_decode ext)
        end
      else Some (Read3Size (Size (decode_FileHeader hdr)))
  end.

(** A well-formed file buffer: the header decodes; the large bit is set
    exactly when the 3-byte size is the sentinel; the decoded extended size is
    the length of the buffer; the header checksum is valid; and the file
    checksum is valid for the body, or [0xAA] when the body is not summed. *)
Definition well_formed (b : list byte) : bool :=
  match binary_Read b 24, decoded_ExtendedSize b with
  | inl (hdr, _), Some E =>
      let fh := decode_FileHeader hdr in
      let large := ThreeUint8_eqb (Size fh) (0xFF, 0xFF, 0xFF) in
      let hlen :=
        if large then FileHeaderExtMinLength else FileHeaderMinLength in
      Bool.eqb (IsLarge (Attributes fh)) large
      && (E =? Z.of_nat (length b))
      && (header_sum fh (firstn (Z.to_nat hlen) b) =? 0)
      && (if HasChecksum (Attributes fh) then
            u8 (IC_File (Checksum fh) + Checksum8 (skipn (Z.to_nat hlen) b))
            =? 0
          else IC_File (Checksum fh) =? EmptyBodyChecksum)
  | _, _ => false
  end.

(** Collaborators for the examples: a section is known by its size, read
    from the three bytes that open it; no NVRAM store is ever found. *)
Definition example_NewSection (b : list byte) (i : Z) : Z + error :=
  if (length b <? 4)%nat then inr (ErrExternal "short section")
  else inl (Read3Size (byte_at b 0, byte_at b 1, byte_at b 2)).

Definition example_NewNVarStore (b : list byte) : option unit * option error :=
  (None, Some (ErrExternal "no store")).

Definition example_NVAR : GUID_t := repeat Byte.x5a 16.

Definition example_NewFile (b : list byte)
  : Outcome (option (File Z unit) * option error) :=
  NewFile Z (fun s => s) unit example_NewSection example_NewNVarStore
    example_NVAR false b.

(** A driver file of 44 bytes with valid checksums: three sections of 5, 6
    and 4 bytes, the first two padded to a multiple of 4. *)
Definition example_driver_bytes : list byte :=
  [ Byte.x10; Byte.x32; Byte.x54; Byte.x76; Byte.x98; Byte.xba; Byte.xdc;
    Byte.xfe; Byte.x01; Byte.x23; Byte.x45; Byte.x67; Byte.x89; Byte.xab;
    Byte.xcd; Byte.xef; Byte.x95; Byte.x4d; Byte.x07; Byte.x40; Byte.x2c;
    Byte.x00; Byte.x00; Byte.xf8;
    Byte.x05; Byte.x00; Byte.x00; Byte.x19; Byte.x11; Byte.x00; Byte.x00;
    Byte.x00;
    Byte.x06; Byte.x00; Byte.x00; Byte.x15; Byte.x22; Byte.x33; Byte.x00;
    Byte.x00;
    Byte.x04; Byte.x00; Byte.x00; Byte.x10 ].

(** The same file with a stale header checksum. *)
Definition example_stale_bytes : list byte :=
  firstn 16 example_driver_bytes ++ [Byte.x00]
  ++ skipn 17 example_driver_bytes.

(** Erased flash: what a window on the free space of a volume holds. *)
Definition erased_window : list byte := repeat Byte.xff 32.

End uefi.

(** * Package [cbfs]: [payload.go] *)

Module cbfs.

Inductive error : Type :=
| EOF
| ErrUnexpectedEOF
| ErrNegativePosition
| ErrFindingLocation (e : error)
| ErrIO (msg : string).

Inductive Whence : Type := SeekStart | SeekCurrent | SeekEnd.

(** [io.ReadSeeker].  [rs_Read s p] is [in.Read(p)]: the stream after the
    call, the count [n], the contents of [p] after the call (a callee cannot
    change the length of the caller's slice) and the error.  [rs_Seek s off w]
    is [in.Seek(off, w)]. *)
Class ReadSeeker (S : Type) : Type := {
  rs_Read : S -> list byte -> S * (Z * list byte * option error);
  rs_Read_length :
    forall s p, length (snd (fst (snd (rs_Read s p)))) = length p;
  rs_Seek : S -> Z -> Whence -> S * (Z * option error)
}.

Definition SegmentType : Type := Z.

(** Modelled from the spec: the types [PayloadHeader], [File] and
    [PayloadRecord], declared in a file of the package that is not among the
    sources.  "A big-endian descriptor with fields: segment type code,
    compression code, file offset, load-address, compressed size, memory
    size"; a payload record "wraps a File, adds a ... sequence of
    PayloadHeader segment descriptors and a body byte slice".  Of a file,
    [payload.go] uses the name, the record start, the type and the size. *)
Record PayloadHeader : Type := mkPayloadHeader {
  PH_Type : SegmentType;
  PH_Compression : Z;
  PH_Offset : Z;
  PH_LoadAddress : Z;
  PH_Size : Z;
  PH_MemSize : Z
}.

Record File : Type := mkFile {
  Name : string;
  RecordStart : Z;
  Type_ : Z;
  Size : Z
}.

Record PayloadRecord : Type := mkPayloadRecord {
  File_ : File;
  Segs : list PayloadHeader;
  FData : list byte
}.

Definition with_Segs (p : PayloadRecord) (segs : list PayloadHeader)
  : PayloadRecord :=
  mkPayloadRecord (File_ p) segs (FData p).
Definition with_FData (p : PayloadRecord) (d : list byte) : PayloadRecord :=
  mkPayloadRecord (File_ p) (Segs p) d.

Definition NewPayloadRecord (f : File) : PayloadRecord * option error :=
  (mkPayloadRecord f [] [], None).

Section Payload.

Context {S : Type} {RS : ReadSeeker S}.

(** The constant [SegEntry] and the package's [Read(in, &h)], which decodes
    one fixed-size big-endian [PayloadHeader] from the stream, are declared in
    other files of the package. *)
Variable SegEntry : SegmentType.
Variable Read_PayloadHeader : S -> S * (PayloadHeader * option error).

(** The [for] loop of [Read], one round per unit of fuel: the stream and the
    record after the loop, and the error with which [Read] returns from inside
    it ([None] after the [break]). *)
Fixpoint readSegments (fuel : nat) (in_ : S) (p : PayloadRecord)
  : Outcome (S * PayloadRecord * option error) :=
  match fuel with
  | O => OutOfFuel
  | Datatypes.S fuel' =>
      let '(in_, (h, err)) := Read_PayloadHeader in_ in
      match err with
      | Some e => Returns (in_, p, Some e)
      | None =>
          let p := with_Segs p (Segs p ++ [h]) in
          if PH_Type h =? SegEntry then Returns (in_, p, None)
          else readSegments fuel' in_ p
      end
  end.

(** [Read] after the loop. *)
Definition readBody (in_ : S) (p : PayloadRecord)
  : Outcome (S * PayloadRecord * option error) :=
  let '(in_, (offset, err)) := rs_Seek in_ 0 SeekCurrent in
  match err with
  | Some e => Returns (in_, p, Some (ErrFindingLocation e))
  | None =>
      let bodySize := i64 (i64 (Size (File_ p)) - offset) in
      if bodySize <? 0 then Returns (in_, p, None)
      else if bodySize =? 0 then Returns (in_, p, None)
      else
        fresh <- make_bytes bodySize ;;
        let '(in_, (n, data, err)) := rs_Read in_ fresh in
        let p := with_FData p data in
        match err with
        | Some e => Returns (in_, p, Some e)
        | None => Returns (in_, p, None)
        end
  end.

Definition Read (fuel : nat) (in_ : S) (p : PayloadRecord)
  : Outcome (S * PayloadRecord * option error) :=
  r <- readSegments fuel in_ p ;;
  match r with
  | (_, _, Some _) => Returns r
  | (in_, p, None) => readBody in_ p
  end.

End Payload.

(** ** A stream over a byte slice: [bytes.Reader] *)

Record Reader : Type := mkReader {
  s : list byte;
  i : Z
}.

Definition Reader_Read (r : Reader) (b : list byte)
  : Reader * (Z * list byte * option error) :=
  if Z.of_nat (length (s r)) <=? i r then (r, (0, b, Some EOF))
  else
    let src := skipn (Z.to_nat (i r)) (s r) in
    let n := Z.of_nat (Nat.min (length b) (length src)) in
    (mkReader (s r) (i r + n),
     (n, firstn (length b) src ++ skipn (length src) b, None)).

Definition Reader_Seek (r : Reader) (offset : Z) (whence : Whence)
  : Reader * (Z * option error) :=
  let abs :=
    match whence with
    | SeekStart => offset
    | SeekCurrent => i r + offset
    | SeekEnd => Z.of_nat (length (s r)) + offset
    end in
  if abs <? 0 then (r, (0, Some ErrNegativePosition))
  else (mkReader (s r) abs, (abs, None)).

(** [bytes.Reader] is an [io.ReadSeeker]. *)
#[export] Instance Reader_ReadSeeker : ReadSeeker Reader.
Proof.
  refine {| rs_Read := Reader_Read; rs_Seek := Reader_Seek |}.
  intros r b. unfold Reader_Read.
  destruct (Z.of_nat (length (s r)) <=? i r); cbn [snd fst]; [reflexivity|].
  rewrite length_app, length_firstn, !length_skipn. lia.
Defined.

(** Modelled from the spec: the layout [Read(in, &h)] decodes, "a fixed-size
    PayloadHeader (big-endian)", with the field widths of a SELF segment:
    4, 4, 4, 8, 4 and 4 bytes.  It reads its 28 bytes with [io.ReadFull]. *)
Definition decode_PayloadHeader (bs : list byte) : PayloadHeader :=
  mkPayloadHeader
    (be_decode (firstn 4 bs))
    (be_decode (firstn 4 (skipn 4 bs)))
    (be_decode (firstn 4 (skipn 8 bs)))
    (be_decode (firstn 8 (skipn 12 bs)))
    (be_decode (firstn 4 (skipn 20 bs)))
    (be_decode (firstn 4 (skipn 24 bs))).

Definition PayloadHeader_zero : PayloadHeader := mkPayloadHeader 0 0 0 0 0 0.

Definition Reader_Read_PayloadHeader (r : Reader)
  : Reader * (PayloadHeader * option error) :=
  let src := skipn (Z.to_nat (i r)) (s r) in
  if Z.of_nat (length (s r)) <=? i r then (r, (PayloadHeader_zero, Some EOF))
  else if (length src <? 28)%nat then
    (mkReader (s r) (Z.of_nat (length (s r))),
     (PayloadHeader_zero, Some ErrUnexpectedEOF))
  else
    (mkReader (s r) (i r + 28), (decode_PayloadHeader (firstn 28 src), None)).

(** ** Values for the examples *)

(** The letters [ENTR], to stand for [SegEntry]. *)
Definition example_SegEntry : SegmentType := 0x454E5452.

Definition example_entry_segment : list byte :=
  [ Byte.x45; Byte.x4e; Byte.x54; Byte.x52 ] ++ repeat Byte.x00 24.

Definition example_code_segment : list byte :=
  [ Byte.x43; Byte.x4f; Byte.x44; Byte.x45 ] ++ repeat Byte.x00 24.

(** A code segment, the entry segment, and two bytes of body. *)
Definition example_stream : Reader :=
  mkReader
    (example_code_segment ++ example_entry_segment ++ [Byte.x11; Byte.x22]) 0.

(** A file that declares [size] bytes. *)
Definition example_File (size : Z) : File :=
  mkFile "payload" 0 0x20 size.

(** The stream and the record once the two segments are read. *)
Definition example_stream_at (pos : Z) : Reader :=
  mkReader (s example_stream) pos.

Definition example_record (size : Z) : PayloadRecord :=
  mkPayloadRecord (example_File size)
    [ mkPayloadHeader 0x434F4445 0 0 0 0 0;
      mkPayloadHeader example_SegEntry 0 0 0 0 0 ] [].

End cbfs.

(** * Package [uefi]: the rest of [file.go] *)

Module uefi_more.
Import uefi.

(** ** The reverse table of type names *)

(** [strings.TrimPrefix]. *)
Definition TrimPrefix (s prefix : string) : string :=
  if String.prefix prefix s then
    String.substring (String.length prefix)
      (String.length s - String.length prefix) s
  else s.

(** A Go map with string keys, as an association list read from the front;
    an assignment shadows what the key held. *)
Fixpoint smap_get {V : Type} (m : list (string * V)) (k : string) : option V :=
  match m with
  | [] => None
  | (k', v) :: m' => if String.eqb k' k then Some v else smap_get m' k
  end.

Definition smap_set {V : Type} (m : list (string * V)) (k : string) (v : V)
  : list (string * V) :=
  (k, v) :: m.

(** The [init] that fills [NamesToFileType], run over the entries of
    [fileTypeNames] in the order [entries]: Go ranges over a map in an order
    of its own choosing. *)
Definition NamesToFileType_init (entries : list (FVFileType * string))
  : list (string * FVFileType) :=
  fold_left
    (fun m '(k, v) => smap_set m (TrimPrefix v "EFI_FV_FILETYPE_") k)
    entries [].

(** An entry of [fileTypeNames] as [init] stores it. *)
Definition trimmed (e : FVFileType * string) : string * FVFileType :=
  let '(k, v) := e in (TrimPrefix v "EFI_FV_FILETYPE_", k).

(** ** Visitors *)

Section Visit.

Variables Section_ NVarStore_ : Type.

(** The state of a visitor, and what [s.Apply(v)] and [ns.Apply(v)] do to it
    in the files of sections and of the NVRAM store. *)
Variable Visitor : Type.
Variable Section_Apply : Section_ -> Visitor -> Visitor * option error.
Variable NVarStore_Apply : NVarStore_ -> Visitor -> Visitor * option error.

(** The [for] loop of [ApplyChildren]. *)
Fixpoint apply_sections (ss : list Section_) (v : Visitor)
  : Visitor * option error :=
  match ss with
  | [] => (v, None)
  | s :: ss' =>
      let '(v, err) := Section_Apply s v in
      match err with
      | Some e => (v, Some e)
      | None => apply_sections ss' v
      end
  end.

Definition ApplyChildren (f : File Section_ NVarStore_) (v : Visitor)
  : Visitor * option error :=
  match NVarStore f with
  | Some ns =>
      let '(v, err) := NVarStore_Apply ns v in
      match err with
      | Some e => (v, Some e)
      | None => (v, None)
      end
  | None => apply_sections (Sections f) v
  end.

End Visit.

(** ** Notions used in the statements *)

Definition is_uint8 (z : Z) : Prop := 0 <= z < 256.

(** A header as Go holds it: a GUID of 16 bytes and 8-bit fields. *)
Definition header_in_range (fh : FileHeader) : Prop :=
  length (GUID fh) = 16%nat /\
  is_uint8 (IC_Header (Checksum fh)) /\ is_uint8 (IC_File (Checksum fh)) /\
  is_uint8 (Type_ fh) /\ is_uint8 (Attributes fh) /\
  (let '(s0, s1, s2) := Size fh in
   is_uint8 s0 /\ is_uint8 s1 /\ is_uint8 s2) /\
  is_uint8 (State fh).

(** What is checked of the name of each type code. *)
Definition type_name_checks (a : Z) : bool :=
  Bool.eqb (String.eqb (FVFileType_String a) "UNKNOWN")
    ((a =? 0) || ((16 <=? a) && (a <? 0xC0)))
  && forallb
       (fun n =>
          let b := Z.of_nat n in
          implb (String.eqb (FVFileType_String a) (FVFileType_String b))
            ((a =? b) || String.eqb (FVFileType_String a) "UNKNOWN"))
       (seq 0 256).


(** A visitor that notes what it is shown and fails at the section of size
    6. *)
Definition example_Section_Apply (s : Z) (v : list Z)
  : list Z * option error :=
  (v ++ [s], if s =? 6 then Some (ErrExternal "visit") else None).

Definition example_NVarStore_Apply (ns : unit) (v : list Z)
  : list Z * option error :=
  (v ++ [-1], None).

(** A raw file with the GUID that stands for [NVAR] in the examples and a
    declared size of 5 bytes. *)
Definition example_short_store : list byte :=
  repeat Byte.x5a 16
  ++ [ Byte.x00; Byte.x00; Byte.x01; Byte.x00; Byte.x05; Byte.x00; Byte.x00;
       Byte.x00 ].

(** Collaborators for which every section has 4 bytes. *)
Definition example_NewFile4 (b : list byte)
  : Outcome (option (File unit unit) * option error) :=
  NewFile unit (fun _ => 4) unit (fun _ _ => inl tt) example_NewNVarStore
    example_NVAR true b.

End uefi_more.

(** * Properties *)

(** ** Basic facts on bytes *)

Lemma u8_range z : 0 <= u8 z < 256.
Proof. unfold u8. apply Z.mod_pos_bound. lia. Qed.

Lemma u8_small z : 0 <= z < 256 -> u8 z = z.
Proof. intros H. unfold u8. apply Z.mod_small. exact H. Qed.

Lemma b2z_range b : 0 <= b2z b < 256.
Proof.
  unfold b2z. pose proof (Byte.to_N_bounded b) as H. lia.
Qed.

Lemma z2b_b2z b : z2b (b2z b) = b.
Proof.
  unfold z2b. rewrite (u8_small _ (b2z_range b)).
  unfold b2z. rewrite N2Z.id, Byte.of_to_N. reflexivity.
Qed.

Lemma b2z_z2b z : b2z (z2b z) = u8 z.
Proof.
  unfold z2b. pose proof (u8_range z) as R.
  destruct (Byte.of_N (Z.to_N (u8 z))) as [b|] eqn:E.
  - apply Byte.to_of_N in E. unfold b2z. rewrite E. lia.
  - apply Byte.of_N_None_iff in E. lia.
Qed.

Lemma le_encode_length n : forall z, length (le_encode n z) = n.
Proof. induction n as [|n IH]; intros z; simpl; [reflexivity|]. now rewrite IH. Qed.

Lemma le_decode_range bs : 0 <= le_decode bs < 256 ^ Z.of_nat (length bs).
Proof.
  induction bs as [|b bs IH]; [simpl; lia|].
  cbn [le_decode length]. rewrite Nat2Z.inj_succ, Z.pow_succ_r by lia.
  pose proof (b2z_range b). lia.
Qed.

Lemma le_encode_decode bs : le_encode (length bs) (le_decode bs) = bs.
Proof.
  induction bs as [|b bs IH]; [reflexivity|].
  cbn [le_decode length le_encode]. pose proof (b2z_range b) as R.
  f_equal.
  - rewrite <- (z2b_b2z b) at 2. unfold z2b.
    replace (u8 (b2z b + 256 * le_decode bs)) with (u8 (b2z b)); [reflexivity|].
    unfold u8. Z.div_mod_to_equations. lia.
  - replace ((b2z b + 256 * le_decode bs) / 256) with (le_decode bs); [exact IH|].
    Z.div_mod_to_equations. lia.
Qed.

Lemma le_decode_encode n : forall z, le_decode (le_encode n z) = z mod 256 ^ Z.of_nat n.
Proof.
  induction n as [|n IH]; intros z.
  - simpl. now rewrite Z.mod_1_r.
  - cbn [le_encode le_decode]. rewrite IH, b2z_z2b. unfold u8.
    rewrite Nat2Z.inj_succ, Z.pow_succ_r by lia.
    rewrite Z.rem_mul_r by lia. reflexivity.
Qed.

(** A property checked on the 256 values of a [uint8] holds of each. *)
Lemma forall_uint8 (P : Z -> bool) :
  forallb P (map Z.of_nat (seq 0 256)) = true ->
  forall a, 0 <= a < 256 -> P a = true.
Proof.
  intros H a Ha. rewrite forallb_forall in H. apply H.
  apply in_map_iff. exists (Z.to_nat a). split; [lia|].
  apply in_seq. lia.
Qed.

Lemma Read3Size_Write3Size size :
  0 <= size -> Read3Size (Write3Size size) = Z.min size 0xFFFFFF.
Proof.
  intros Hs. unfold Write3Size.
  destruct (0xFFFFFF <? size) eqn:E.
  - apply Z.ltb_lt in E. cbn [Read3Size]. lia.
  - apply Z.ltb_ge in E. cbn [Read3Size]. unfold u8.
    rewrite Z.min_l by lia.
    pose proof (Z.div_mod size 256 ltac:(lia)) as D0.
    pose proof (Z.div_mod (size / 256) 256 ltac:(lia)) as D1.
    pose proof (Z.mod_pos_bound size 256 ltac:(lia)).
    pose proof (Z.mod_pos_bound (size / 256) 256 ltac:(lia)).
    assert (size / 65536 = size / 256 / 256) as D2
      by (rewrite Z.div_div by lia; reflexivity).
    assert (0 <= size / 65536 < 256) as B.
    { split; [apply Z.div_pos; lia|apply Z.div_lt_upper_bound; lia]. }
    rewrite (Z.mod_small (size / 65536)) by exact B. lia.
Qed.

Module uefi_spec.
Import uefi.

(** ** The alignment index *)

(** C10.  For every 8-bit attribute value the alignment index is at most 15:
    its three low bits are bits 3 to 5 of the attribute, its bit 3 is bit 1 of
    the attribute.  The lookup in the sixteen-entry table is therefore in
    bounds: [GetAlignment] returns, and returns an entry of the table. *)
Theorem GetAlignment_in_bounds :
  forall a : fileAttr, 0 <= a < 256 ->
    0 <= alignVal a <= 15 /\
    Z.land (alignVal a) 7 = Z.land (Z.shiftr a 3) 7 /\
    Z.testbit (alignVal a) 3 = Z.testbit a 1 /\
    length fileAlignments = 16%nat /\
    exists v,
      nth_error fileAlignments (Z.to_nat (alignVal a)) = Some v /\
      GetAlignment a = Returns v /\
      In v fileAlignments.
Proof.
  intros a Ha.
  pose proof (forall_uint8 alignment_checks ltac:(vm_compute; reflexivity) a Ha)
    as C.
  unfold alignment_checks in C.
  repeat rewrite andb_true_iff in C.
  destruct C as [[[[C1 C2] C3] C4] C5].
  apply Z.leb_le in C1, C2. apply Z.eqb_eq in C3. apply Bool.eqb_prop in C4.
  repeat split; try assumption.
  unfold GetAlignment.
  destruct (nth_error fileAlignments (Z.to_nat (alignVal a))) as [v|] eqn:E;
    [|discriminate].
  exists v. repeat split. eapply nth_error_In; exact E.
Qed.

Lemma GetAlignment_in_bounds_witness :
  0 <= 0x3A < 256 /\ GetAlignment 0x3A = Returns (16 * 1024 * 1024).
Proof.
  split; [lia|].
  destruct (GetAlignment_in_bounds 0x3A ltac:(lia))
    as (_ & _ & _ & _ & v & Hn & Hg & _).
  rewrite Hg. vm_compute in Hn. injection Hn as <-. reflexivity.
Defined.

(** ** Checksums *)

Lemma Checksum8_fold l : forall acc,
  fold_left (fun sum val => u8 (sum + b2z val)) l (u8 acc) = u8 (acc + sumZ l).
Proof.
  induction l as [|b l IH]; intros acc; cbn [fold_left sumZ].
  - f_equal. lia.
  - rewrite IH. unfold u8. Z.div_mod_to_equations. lia.
Qed.

Lemma Checksum8_sumZ l : Checksum8 l = u8 (sumZ l).
Proof. unfold Checksum8. change 0 with (u8 0) at 1. now rewrite Checksum8_fold. Qed.

Lemma sumZ_app a b : sumZ (a ++ b) = sumZ a + sumZ b.
Proof. induction a as [|x a IH]; cbn [sumZ app]; lia. Qed.

Lemma Checksum8_range l : 0 <= Checksum8 l < 256.
Proof. rewrite Checksum8_sumZ. apply u8_range. Qed.

Lemma sumZ_encode_FileHeader fh :
  sumZ (encode_FileHeader fh) =
  sumZ (GUID fh) + u8 (IC_Header (Checksum fh)) + u8 (IC_File (Checksum fh))
  + u8 (Type_ fh) + u8 (Attributes fh)
  + (let '(s0, s1, s2) := Size fh in u8 s0 + u8 s1 + u8 s2)
  + u8 (State fh).
Proof.
  unfold encode_FileHeader. destruct (Size fh) as [[s0 s1] s2].
  rewrite !sumZ_app. cbn [sumZ]. rewrite !b2z_z2b. lia.
Qed.

Lemma encode_FileHeader_length fh :
  length (GUID fh) = 16%nat -> length (encode_FileHeader fh) = 24%nat.
Proof.
  intros H. unfold encode_FileHeader. destruct (Size fh) as [[s0 s1] s2].
  rewrite !length_app, H. reflexivity.
Qed.

Lemma slice_to_app a b n :
  Z.of_nat (length a) = n -> slice_to (a ++ b) n = Returns a.
Proof.
  intros H. unfold slice_to. rewrite length_app.
  replace (n <? 0) with false by (symmetry; apply Z.ltb_ge; lia).
  replace (Z.of_nat (length a + length b) <? n) with false
    by (symmetry; apply Z.ltb_ge; lia).
  cbn [orb]. f_equal.
  replace (Z.to_nat n) with (length a + 0)%nat by lia.
  rewrite firstn_app_2. cbn [firstn]. apply app_nil_r.
Qed.

Lemma slice_to_all a n : Z.of_nat (length a) = n -> slice_to a n = Returns a.
Proof.
  intros H. rewrite <- (app_nil_r a) at 1. now apply slice_to_app.
Qed.

(** The arithmetic of the two passes: whatever the other header bytes sum
    to, the patched header checksum brings the sum, less the file checksum
    and the state, to zero. *)
Lemma header_sum_zero R H F St F' :
  let sum := u8 (u8 (u8 (R + u8 H + u8 F + u8 St) - F) - St) in
  let H' := u8 (H - sum) in
  u8 (u8 (u8 (R + u8 H' + u8 F' + u8 St) - F') - St) = 0.
Proof.
  cbv zeta. unfold u8. Z.div_mod_to_equations. lia.
Qed.

(** Projections of files and headers built by the setters. *)
Ltac simpl_file :=
  cbn [fh_of Header FileHeader_ SetBuf buf Attributes Checksum IC_Header
       IC_File State ExtendedSize Type_str Sections NVarStore ExtractPath
       DataOffset GUID set_Checksum set_IC_Header set_IC_File with_fh
       with_Header with_ExtendedSize with_Type_str with_Sections
       with_NVarStore with_DataOffset set_GUID set_Type set_Attributes
       set_Size set_State Type_ Size] in *.

Section Assemble.

Variables Section_ NVarStore_ : Type.
Let File := (File Section_ NVarStore_).

Lemma IsLarge_header_length (h : FileHeaderExtended) :
  length (GUID (FileHeader_ h)) = 16%nat ->
  Z.of_nat (length (header_bytes h)) =
  if IsLarge (Attributes (FileHeader_ h)) then FileHeaderExtMinLength
  else FileHeaderMinLength.
Proof.
  intros G. unfold header_bytes.
  destruct (IsLarge (Attributes (FileHeader_ h)));
    rewrite ?length_app, ?le_encode_length, (encode_FileHeader_length _ G);
    reflexivity.
Qed.

(** What [ChecksumAndAssemble] returns: it never fails, and the file it leaves
    has the two checksums patched and the buffer rebuilt. *)
Lemma ChecksumAndAssemble_eq (f : File) (body : list byte) :
  length (GUID (fh_of f)) = 16%nat ->
  let fh := fh_of f in
  let fh' :=
    set_Checksum fh
      (mkIntegrityCheck
         (u8 (IC_Header (Checksum fh) - header_sum fh (header_bytes (Header f))))
         (if HasChecksum (Attributes fh) then u8 (0 - Checksum8 body)
          else EmptyBodyChecksum)) in
  let h' := mkFileHeaderExtended fh' (ExtendedSize (Header f)) in
  ChecksumAndAssemble f body =
  Returns (mkFile h' (Type_str f) (Sections f) (NVarStore f)
             (header_bytes h' ++ body) (ExtractPath f) (DataOffset f), None).
Proof.
  intros G.
  destruct f as [[fh E] ts ss ns b ep d].
  destruct fh as [g [H F] T A [[s0 s1] s2] St]. simpl_file.
  cbv zeta. unfold ChecksumAndAssemble, binary_Write_FileHeaderExtended,
    binary_Write_FileHeader, ChecksumHeader, header_bytes, header_sum.
  simpl_file.
  assert (length (encode_FileHeader
            (mkFileHeader g (mkIntegrityCheck H F) T A (s0, s1, s2) St)) = 24%nat)
    as L by (apply encode_FileHeader_length; exact G).
  destruct (IsLarge A) eqn:EL.
  - rewrite slice_to_all
      by (rewrite length_app, le_encode_length, L; reflexivity).
    cbn [obind]. 
    simpl_file.
    destruct (HasChecksum A); simpl_file; rewrite ?EL; reflexivity.
  - rewrite slice_to_app by (rewrite L; reflexivity).
    cbn [obind].
    simpl_file.
    destruct (HasChecksum A); simpl_file; rewrite ?EL; reflexivity.
Qed.

End Assemble.

Lemma firstn_header_bytes (h : FileHeaderExtended) (body : list byte) :
  length (GUID (FileHeader_ h)) = 16%nat ->
  firstn
    (Z.to_nat (if IsLarge (Attributes (FileHeader_ h))
               then FileHeaderExtMinLength else FileHeaderMinLength))
    (header_bytes h ++ body) = header_bytes h.
Proof.
  intros G. pose proof (IsLarge_header_length h G) as L.
  rewrite <- L, Nat2Z.id.
  replace (length (header_bytes h)) with (length (header_bytes h) + 0)%nat
    by lia.
  rewrite firstn_app_2. cbn [firstn]. apply app_nil_r.
Qed.

(** C2.  After a successful [ChecksumAndAssemble] the 8-bit sum of the first
    [HeaderLen] bytes of the buffer, less the file checksum and less the
    state, is 0 modulo 256: [ChecksumHeader] returns 0 on the assembled
    file. *)
Theorem ChecksumAndAssemble_header_checksum :
  forall (Section_ NVarStore_ : Type) (f f' : File Section_ NVarStore_)
         (body : list byte),
    length (GUID (fh_of f)) = 16%nat ->
    ChecksumAndAssemble f body = Returns (f', None) ->
    (Checksum8 (firstn (Z.to_nat (HeaderLen f')) (buf f'))
     - IC_File (Checksum (fh_of f')) - State (fh_of f')) mod 256 = 0
    /\ ChecksumHeader f' = Returns 0.
Proof.
  intros S_ N_ f f' body G HA.
  rewrite (ChecksumAndAssemble_eq _ _ f body G) in HA. cbv zeta in HA.
  injection HA as <-.
  destruct f as [[fh E] ts ss ns b ep d].
  destruct fh as [g [H F] T A [[s0 s1] s2] St]. simpl_file.
  unfold HeaderLen, ChecksumHeader. simpl_file.
  set (F' := if HasChecksum A then _ else EmptyBodyChecksum).
  clearbody F'.
  set (h' := mkFileHeaderExtended _ E).
  assert (length (GUID (FileHeader_ h')) = 16%nat) as G' by exact G.
  pose proof (firstn_header_bytes h' body G') as FN.
  pose proof (IsLarge_header_length h' G') as L.
  change (Attributes (FileHeader_ h')) with A in FN, L.
  assert (u8 (u8 (Checksum8 (header_bytes h') - F') - St) = 0) as Z0.
  { subst h'. unfold header_bytes, header_sum. simpl_file.
    destruct (IsLarge A);
      rewrite !Checksum8_sumZ, ?sumZ_app, !sumZ_encode_FileHeader; simpl_file.
    - generalize (sumZ (le_encode 8 E)) as X. intros X.
      unfold u8. Z.div_mod_to_equations. lia.
    - unfold u8. Z.div_mod_to_equations. lia. }
  split.
  - rewrite FN. unfold u8 in Z0. revert Z0.
    generalize (Checksum8 (header_bytes h')). intros c.
    Z.div_mod_to_equations. lia.
  - rewrite (slice_to_app _ _ _ L). cbn [obind]. now rewrite Z0.
Qed.

Lemma ChecksumAndAssemble_header_checksum_witness :
  exists f',
    ChecksumAndAssemble example_file [Byte.x01; Byte.x02] = Returns (f', None)
    /\ ChecksumHeader f' = Returns 0.
Proof.
  eexists. split.
  - vm_compute. reflexivity.
  - exact (proj2 (ChecksumAndAssemble_header_checksum unit unit example_file _
                    [Byte.x01; Byte.x02] eq_refl eq_refl)).
Defined.

(** C3, as the code has it.  After a successful [ChecksumAndAssemble]: when
    the body-checksum bit of the attributes is set, the file checksum and the
    8-bit sum of the body add up to 0 modulo 256 (the body itself need not sum
    to 0); when the bit is unset, the file checksum is [0xAA]. *)
Theorem ChecksumAndAssemble_file_checksum :
  forall (Section_ NVarStore_ : Type) (f f' : File Section_ NVarStore_)
         (body : list byte),
    ChecksumAndAssemble f body = Returns (f', None) ->
    (HasChecksum (Attributes (fh_of f')) = true ->
     (IC_File (Checksum (fh_of f')) + Checksum8 body) mod 256 = 0)
    /\ (HasChecksum (Attributes (fh_of f')) = false ->
        IC_File (Checksum (fh_of f')) = 0xAA).
Proof.
  intros S_ N_ f f' body HA.
  destruct f as [[fh E] ts ss ns b ep d].
  destruct fh as [g [H F] T A [[s0 s1] s2] St].
  unfold ChecksumAndAssemble, binary_Write_FileHeaderExtended,
    binary_Write_FileHeader, ChecksumHeader in HA. simpl_file.
  destruct (slice_to _ _) as [hb| |]; cbn [obind] in HA; try discriminate.
  simpl_file.
  destruct (HasChecksum A) eqn:HC; simpl_file;
    destruct (IsLarge A); injection HA as <-; simpl_file; rewrite HC;
    (split; [intros X|intros X]); try discriminate; try reflexivity.
  all: pose proof (Checksum8_range body); unfold u8;
    Z.div_mod_to_equations; lia.
Qed.

Lemma ChecksumAndAssemble_file_checksum_witness :
  exists f',
    ChecksumAndAssemble example_file [Byte.x01; Byte.x02] = Returns (f', None)
    /\ (IC_File (Checksum (fh_of f')) + Checksum8 [Byte.x01; Byte.x02]) mod 256
       = 0.
Proof.
  eexists. split.
  - vm_compute. reflexivity.
  - exact (proj1 (ChecksumAndAssemble_file_checksum unit unit example_file
                    _ [Byte.x01; Byte.x02] eq_refl) eq_refl).
Defined.

(** C3 as stated fails: a file with the body-checksum bit set is assembled
    around a body whose bytes sum to 1. *)
Lemma body_sum_not_zero :
  ~ (forall (Section_ NVarStore_ : Type) (f f' : File Section_ NVarStore_)
            (body : list byte),
        ChecksumAndAssemble f body = Returns (f', None) ->
        (HasChecksum (Attributes (fh_of f')) = true ->
         Checksum8 body mod 256 = 0)
        /\ (HasChecksum (Attributes (fh_of f')) = false ->
            IC_File (Checksum (fh_of f')) = 0xAA)).
Proof.
  intros C.
  destruct (C unit unit example_file _ [Byte.x01] eq_refl) as [C1 _].
  specialize (C1 eq_refl). vm_compute in C1. discriminate C1.
Qed.

(** ** Sizes *)

Lemma IsLarge_setLarge a b : IsLarge (setLarge a b) = b.
Proof.
  unfold IsLarge, setLarge. destruct b.
  - rewrite Z.land_lor_distr_l. change (Z.land 1 1) with 1.
    change 1 with (Z.ones 1) at 1. rewrite Z.land_ones by lia.
    change (2 ^ 1) with 2.
    pose proof (Z.mod_pos_bound a 2 ltac:(lia)) as B.
    assert (a mod 2 = 0 \/ a mod 2 = 1) as [-> | ->] by lia; reflexivity.
  - rewrite <- Z.land_assoc. change (Z.land 254 1) with 0.
    rewrite Z.land_0_r. reflexivity.
Qed.

Lemma setLarge_other_bits a b : Z.land (setLarge a b) 0xFE = Z.land a 0xFE.
Proof.
  unfold setLarge. destruct b.
  - rewrite Z.land_lor_distr_l. change (Z.land 1 254) with 0.
    apply Z.lor_0_r.
  - rewrite <- Z.land_assoc. reflexivity.
Qed.

(** C4.  [SetSize(size, resize)] stores [size] as the extended size and
    clears the large bit; when [size > 0xFFFFFF] it sets the large bit and,
    with [resize], adds 8 to the extended size (a 64-bit addition); the 3-byte
    size is then [min(ExtendedSize, 0xFFFFFF)].  The other attribute bits are
    kept.  [SetSize(0x1000000, true)] gives the extended size [0x1000008], the
    size [{0xFF,0xFF,0xFF}], the large bit set and a header of 32 bytes. *)
Theorem SetSize_spec :
  forall (Section_ NVarStore_ : Type) (f : File Section_ NVarStore_)
         (size : Z) (resize : bool),
    0 <= size < 2 ^ 64 ->
    let f' := SetSize f size resize in
    let large := 0xFFFFFF <? size in
    ExtendedSize (Header f') =
      (if large && resize then u64 (size + 8) else size)
    /\ (large = true -> resize = true -> size + 8 < 2 ^ 64 ->
        ExtendedSize (Header f') = size + 8)
    /\ IsLarge (Attributes (fh_of f')) = large
    /\ Z.land (Attributes (fh_of f')) 0xFE = Z.land (Attributes (fh_of f)) 0xFE
    /\ Size (fh_of f') = Write3Size (ExtendedSize (Header f'))
    /\ Read3Size (Size (fh_of f')) = Z.min (ExtendedSize (Header f')) 0xFFFFFF
    /\ HeaderLen f' = (if large then 32 else 24)
    /\ (size = 0x1000000 -> resize = true ->
        ExtendedSize (Header f') = 0x1000008
        /\ Size (fh_of f') = (0xFF, 0xFF, 0xFF)
        /\ IsLarge (Attributes (fh_of f')) = true
        /\ HeaderLen f' = 32).
Proof.
  intros S_ N_ f size resize Hs f' large.
  assert (ExtendedSize (Header f') =
          (if large && resize then u64 (size + 8) else size)) as HE.
  { subst f' large. unfold SetSize. simpl_file.
    destruct (0xFFFFFF <? size); destruct resize; reflexivity. }
  assert (Attributes (fh_of f') =
          if large then setLarge (setLarge (Attributes (fh_of f)) false) true
          else setLarge (Attributes (fh_of f)) false) as HA.
  { subst f' large. unfold SetSize. simpl_file.
    destruct (0xFFFFFF <? size); destruct resize; reflexivity. }
  assert (Size (fh_of f') = Write3Size (ExtendedSize (Header f'))) as HS.
  { subst f' large. unfold SetSize. simpl_file.
    destruct (0xFFFFFF <? size); destruct resize; reflexivity. }
  assert (IsLarge (Attributes (fh_of f')) = large) as HL.
  { rewrite HA. destruct large; apply IsLarge_setLarge. }
  assert (0 <= ExtendedSize (Header f')) as HP.
  { rewrite HE. destruct (large && resize); [|lia].
    unfold u64. apply Z.mod_pos_bound. lia. }
  assert (HeaderLen f' = (if large then 32 else 24)) as HH.
  { unfold HeaderLen. rewrite HL. reflexivity. }
  repeat split; try assumption.
  - intros L R B. rewrite HE, L, R. cbn [andb]. unfold u64.
    apply Z.mod_small. lia.
  - rewrite HA. destruct large; rewrite !setLarge_other_bits; reflexivity.
  - rewrite HS. apply Read3Size_Write3Size. exact HP.
  - rewrite HE. subst large size resize. reflexivity.
  - rewrite HS, HE. subst large size resize. reflexivity.
  - rewrite HL. subst large size. reflexivity.
  - rewrite HH. subst large size. reflexivity.
Qed.

Lemma SetSize_spec_witness :
  0 <= 0x1000000 < 2 ^ 64 /\
  ExtendedSize (Header (SetSize example_file 0x1000000 true)) = 0x1000008.
Proof.
  split; [lia|].
  exact (proj1 (proj2 (SetSize_spec unit unit example_file 0x1000000 true
                         ltac:(lia))) eq_refl eq_refl ltac:(lia)).
Defined.

(** ** Pad files *)

(** C5.  [CreatePadFile] fails for every size below 24, whatever the erase
    polarity.  With polarity [0xFF], [CreatePadFile(24)] succeeds: the buffer
    has 24 bytes and so no body; the GUID is all-ones, the type [0xF0], the
    attributes 0, the size [{0x18,0,0}]; the state XOR [0xFF] is
    [FileStateValid]; the header sums to zero once the state and the file
    checksum are left out; and the file checksum is [0xAA].  The buffer holds
    these very fields. *)
Theorem CreatePadFile_spec :
  forall (Section_ NVarStore_ : Type),
    (forall polarity size : Z,
        size < 24 ->
        CreatePadFile Section_ NVarStore_ polarity size =
        Returns (None, Some (ErrPadTooSmall 24 size)))
    /\ exists f : File Section_ NVarStore_,
        CreatePadFile Section_ NVarStore_ 0xFF 24 = Returns (Some f, None)
        /\ length (buf f) = 24%nat
        /\ slice_from (buf f) (HeaderLen f) = Returns []
        /\ decode_FileHeader (buf f) = fh_of f
        /\ GUID (fh_of f) = repeat Byte.xff 16
        /\ Type_ (fh_of f) = 0xF0
        /\ Attributes (fh_of f) = 0x00
        /\ Size (fh_of f) = (0x18, 0x00, 0x00)
        /\ Z.lxor (State (fh_of f)) 0xFF = FileStateValid
        /\ ChecksumHeader f = Returns 0
        /\ IC_File (Checksum (fh_of f)) = 0xAA.
Proof.
  intros S_ N_. split.
  - intros polarity size Hs. unfold CreatePadFile.
    replace (size <? FileHeaderMinLength) with true; [reflexivity|].
    symmetry. apply Z.ltb_lt. exact Hs.
  - eexists. split; [vm_compute; reflexivity|].
    repeat split; vm_compute; reflexivity.
Qed.

Lemma CreatePadFile_spec_witness :
  23 < 24 /\
  CreatePadFile unit unit 0xFF 23 = Returns (None, Some (ErrPadTooSmall 24 23)).
Proof.
  split; [lia|].
  exact (proj1 (CreatePadFile_spec unit unit) 0xFF 23 ltac:(lia)).
Defined.

(** ** Parsing *)

Lemma ThreeUint8_eqb_eq a b : ThreeUint8_eqb a b = true <-> a = b.
Proof.
  destruct a as [[a0 a1] a2], b as [[b0 b1] b2]. unfold ThreeUint8_eqb.
  rewrite !andb_true_iff, !Z.eqb_eq. split.
  - intros [[-> ->] ->]. reflexivity.
  - intros E. injection E as -> -> ->. auto.
Qed.

Lemma binary_Read_inl r n x rest :
  binary_Read r n = inl (x, rest) ->
  x = firstn n r /\ rest = skipn n r /\ (n <= length r)%nat.
Proof.
  unfold binary_Read. destruct r as [|b r]; [discriminate|].
  destruct (length (b :: r) <? n)%nat eqn:E; [discriminate|].
  apply Nat.ltb_ge in E. intros X. injection X as <- <-. auto.
Qed.

Lemma copy_bytes_same_length dst src :
  length dst = length src -> copy_bytes dst src = src.
Proof.
  intros L. unfold copy_bytes. rewrite L, firstn_all, skipn_all2 by lia.
  apply app_nil_r.
Qed.

Section Parse.

Variable Section_ : Type.
Variable Section_ExtendedSize : Section_ -> Z.
Variable NVarStore_ : Type.
Variable NewSection : list byte -> Z -> Section_ + error.
Variable NewNVarStore : list byte -> option NVarStore_ * option error.
Variable NVAR : GUID_t.
Variable ReadOnly : bool.

Let File := (File Section_ NVarStore_).
Let parseSections := (parseSections Section_ Section_ExtendedSize NVarStore_
                        NewSection).
Let NewFile_body := (NewFile_body Section_ Section_ExtendedSize NVarStore_
                       NewSection NewNVarStore NVAR ReadOnly).
Let NewFile := (NewFile Section_ Section_ExtendedSize NVarStore_ NewSection
                  NewNVarStore NVAR ReadOnly).

Lemma parseSections_result fuel : forall (f : File) i offset r,
  parseSections fuel f i offset = Returns r ->
  file_or_error r /\
  forall f', r = (Some f', None) ->
    Header f' = Header f /\ buf f' = buf f /\ DataOffset f' = DataOffset f.
Proof.
  induction fuel as [|fuel IH]; intros f i offset r; cbn [parseSections uefi.parseSections];
    subst parseSections; cbn [uefi.parseSections];
    destruct (offset <? ExtendedSize (Header f)).
  - discriminate.
  - intros X. injection X as <-. split; [constructor|].
    intros f' X. injection X as <-. auto.
  - destruct (slice_from (buf f) offset) as [b| |]; cbn [obind];
      try discriminate.
    destruct (NewSection b i) as [s|e].
    + destruct (Section_ExtendedSize s =? 0).
      * intros X. injection X as <-. split; [constructor|]. discriminate.
      * intros X. apply IH in X. destruct X as [X1 X2]. split; [exact X1|].
        intros f' E. apply X2 in E. simpl_file. exact E.
    + intros X. injection X as <-. split; [constructor|]. discriminate.
  - intros X. injection X as <-. split; [constructor|].
    intros f' X. injection X as <-. auto.
Qed.

Lemma NewFile_body_result (f : File) b r :
  NewFile_body f b = Returns r ->
  file_or_error r /\
  forall f', r = (Some f', None) ->
    Header f' = Header f /\ DataOffset f' = DataOffset f /\
    0 <= ExtendedSize (Header f) <= Z.of_nat (length b) /\
    buf f' = firstn (Z.to_nat (ExtendedSize (Header f))) b.
Proof.
  subst NewFile_body. unfold uefi.NewFile_body.
  destruct (Z.of_nat (length b) <? ExtendedSize (Header f)) eqn:EB.
  { intros X. injection X as <-. split; [constructor|]. discriminate. }
  apply Z.ltb_ge in EB.
  assert (forall fb,
            (if ReadOnly then slice_to b (ExtendedSize (Header f))
             else
               newBuf <- slice_to b (ExtendedSize (Header f)) ;;
               fresh <- make_bytes (ExtendedSize (Header f)) ;;
               Returns (copy_bytes fresh newBuf)) = Returns fb ->
            0 <= ExtendedSize (Header f) /\
            fb = firstn (Z.to_nat (ExtendedSize (Header f))) b) as HB.
  { intros fb. unfold slice_to, make_bytes.
    destruct (ExtendedSize (Header f) <? 0) eqn:E0;
      [destruct ReadOnly; discriminate|].
    apply Z.ltb_ge in E0.
    destruct (Z.of_nat (length b) <? ExtendedSize (Header f));
      [destruct ReadOnly; discriminate|].
    cbn [orb obind]. destruct ReadOnly.
    - intros X. injection X as <-. auto.
    - destruct (2 ^ 63 <=? ExtendedSize (Header f)); [discriminate|].
      cbn [obind]. intros X. injection X as <-. split; [exact E0|].
      apply copy_bytes_same_length.
      rewrite repeat_length, length_firstn. lia. }
  destruct (if ReadOnly then _ else _) as [fb| |]; cbn [obind];
    try discriminate.
  destruct (HB fb eq_refl) as [E0 ->]. clear HB. simpl_file.
  match goal with
  | |- (f0 <- ?m ;; _) = _ -> _ =>
      assert (forall f1, m = Returns f1 ->
                Header f1 = Header f /\ DataOffset f1 = DataOffset f /\
                buf f1 = firstn (Z.to_nat (ExtendedSize (Header f))) b) as HN;
      [|destruct m as [f1| |]; cbn [obind]; try discriminate]
  end.
  { intros f1.
    destruct (_ && _).
    - destruct (slice_from _ _) as [body| |]; cbn [obind]; try discriminate.
      destruct (NewNVarStore body) as [ns e]. intros X. injection X as <-.
      simpl_file. auto.
    - intros X. injection X as <-. simpl_file. auto. }
  destruct (HN f1 eq_refl) as (H1 & H2 & H3). clear HN.
  destruct (negb _).
  - intros X. injection X as <-. split; [constructor|].
    intros f' X. injection X as <-. auto.
  - intros X.
    apply parseSections_result in X.
    destruct X as [X1 X2]. split; [exact X1|].
    intros f' E. apply X2 in E. destruct E as (E1 & E2 & E3).
    rewrite E1, E2, E3, H1, H2, H3. auto.
Qed.

Lemma NewFile_shape b (f : File) :
  NewFile b = Returns (Some f, None) ->
  exists hdr r E,
    binary_Read b 24 = inl (hdr, r) /\
    decoded_ExtendedSize b = Some E /\
    Header f = mkFileHeaderExtended (decode_FileHeader hdr) E /\
    DataOffset f =
      (if ThreeUint8_eqb (Size (decode_FileHeader hdr)) (0xFF, 0xFF, 0xFF)
       then FileHeaderExtMinLength else FileHeaderMinLength) /\
    0 <= E <= Z.of_nat (length b) /\
    buf f = firstn (Z.to_nat E) b.
Proof.
  subst NewFile. unfold uefi.NewFile, decoded_ExtendedSize.
  destruct (binary_Read b 24) as [[hdr r]|e]; [|discriminate].
  simpl_file.
  destruct (ThreeUint8_eqb _ _) eqn:TE.
  - destruct (binary_Read r 8) as [[ext r']|e]; [|discriminate].
    destruct (le_decode ext =? 0xFFFFFFFFFFFFFFFF); [discriminate|].
    intros X. apply NewFile_body_result in X. destruct X as [_ X].
    destruct (X f eq_refl) as (H1 & H2 & H3 & H4). simpl_file.
    exists hdr, r, (le_decode ext). rewrite TE. auto 10.
  - intros X. apply NewFile_body_result in X. destruct X as [_ X].
    destruct (X f eq_refl) as (H1 & H2 & H3 & H4). simpl_file.
    exists hdr, r, (Read3Size (Size (decode_FileHeader hdr))). rewrite TE.
    auto 10.
Qed.

(** C6.  [NewFile] returns the free-space signal, no file and no error,
    exactly when the header is read with the size [{0xFF,0xFF,0xFF}] and the
    eight bytes read next decode to [0xFFFFFFFFFFFFFFFF].  Every other result
    is a file without an error or an error without a file. *)
Theorem NewFile_free_space :
  forall b : list byte,
    (NewFile b = Returns (None, None) <->
     exists hdr r ext r',
       binary_Read b 24 = inl (hdr, r) /\
       Size (decode_FileHeader hdr) = (0xFF, 0xFF, 0xFF) /\
       binary_Read r 8 = inl (ext, r') /\
       le_decode ext = 0xFFFFFFFFFFFFFFFF)
    /\ (forall res, NewFile b = Returns res ->
          res = (None, None) \/ file_or_error res).
Proof.
  intros b. subst NewFile. unfold uefi.NewFile. split; [split|].
  - destruct (binary_Read b 24) as [[hdr r]|e] eqn:R1; [|discriminate].
    simpl_file.
    destruct (ThreeUint8_eqb _ _) eqn:TE.
    + apply ThreeUint8_eqb_eq in TE.
      destruct (binary_Read r 8) as [[ext r']|e] eqn:R2; [|discriminate].
      destruct (le_decode ext =? 0xFFFFFFFFFFFFFFFF) eqn:EE.
      * apply Z.eqb_eq in EE. intros _. exists hdr, r, ext, r'. auto.
      * intros X. apply NewFile_body_result in X. destruct X as [X _].
        inversion X.
    + intros X. apply NewFile_body_result in X. destruct X as [X _].
      inversion X.
  - intros (hdr & r & ext & r' & R1 & SZ & R2 & EE).
    rewrite R1. simpl_file. rewrite SZ.
    change (ThreeUint8_eqb (0xFF, 0xFF, 0xFF) (0xFF, 0xFF, 0xFF)) with true.
    cbv iota. rewrite R2. simpl_file. rewrite EE. reflexivity.
  - intros res.
    destruct (binary_Read b 24) as [[hdr r]|e].
    2:{ intros X. injection X as <-. right. constructor. }
    simpl_file.
    destruct (ThreeUint8_eqb _ _).
    + destruct (binary_Read r 8) as [[ext r']|e].
      2:{ intros X. injection X as <-. right. constructor. }
      destruct (le_decode ext =? 0xFFFFFFFFFFFFFFFF).
      * intros X. injection X as <-. left. reflexivity.
      * intros X. apply NewFile_body_result in X. right. apply X.
    + intros X. apply NewFile_body_result in X. right. apply X.
Qed.

(** C7, as the code has it.  When the decoded extended size exceeds the
    length of the window and is not [0xFFFFFFFFFFFFFFFF], the mark of free
    space, [NewFile] returns no file and the error that carries the GUID of
    the file, the decoded size and the length of the window. *)
Theorem NewFile_size_overflow :
  forall (b : list byte) (E : Z),
    decoded_ExtendedSize b = Some E ->
    Z.of_nat (length b) < E ->
    E <> 0xFFFFFFFFFFFFFFFF ->
    NewFile b =
    Returns (None, Some (ErrFileTooBig (GUID (decode_FileHeader b)) E
                           (Z.of_nat (length b)))).
Proof.
  intros b E D L NF. subst NewFile.
  unfold uefi.NewFile, decoded_ExtendedSize in *.
  destruct (binary_Read b 24) as [[hdr r]|e] eqn:R1; [|discriminate].
  apply binary_Read_inl in R1. destruct R1 as (Hh & _ & _).
  assert (GUID (decode_FileHeader hdr) = GUID (decode_FileHeader b)) as EG.
  { rewrite Hh. unfold decode_FileHeader, GUID. apply firstn_firstn. }
  clear Hh. simpl_file.
  destruct (ThreeUint8_eqb _ _).
  - destruct (binary_Read r 8) as [[ext r']|e]; [|discriminate].
    assert (le_decode ext = E) as D' by congruence. rewrite D'.
    replace (E =? 0xFFFFFFFFFFFFFFFF) with false
      by (symmetry; apply Z.eqb_neq; exact NF).
    unfold uefi.NewFile_body. simpl_file.
    replace (Z.of_nat (length b) <? E) with true
      by (symmetry; apply Z.ltb_lt; exact L).
    rewrite EG. reflexivity.
  - assert (Read3Size (Size (decode_FileHeader hdr)) = E) as D'
      by congruence.
    rewrite D'. unfold uefi.NewFile_body. simpl_file.
    replace (Z.of_nat (length b) <? E) with true
      by (symmetry; apply Z.ltb_lt; exact L).
    rewrite EG. reflexivity.
Qed.

Lemma firstn_plus (n m : nat) : forall l : list byte,
  firstn (n + m) l = firstn n l ++ firstn m (skipn n l).
Proof.
  induction n as [|n IH]; intros l; [reflexivity|].
  destruct l as [|x l]; cbn [Nat.add firstn skipn app].
  - now rewrite firstn_nil.
  - now rewrite IH.
Qed.

Lemma byte_at_range bs k : 0 <= byte_at bs k < 256.
Proof. apply b2z_range. Qed.

Lemma encode_decode_FileHeader hdr :
  length hdr = 24%nat -> encode_FileHeader (decode_FileHeader hdr) = hdr.
Proof.
  intros L.
  do 24 (destruct hdr as [|? hdr]; [discriminate L|]).
  destruct hdr; [|discriminate L].
  unfold encode_FileHeader, decode_FileHeader, byte_at.
  cbn [GUID Checksum IC_Header IC_File Type_ Attributes Size State firstn nth
       app].
  rewrite !z2b_b2z. reflexivity.
Qed.

(** The header [NewFile] decodes from a window, written back in the shape its
    large bit dictates, is the start of the window. *)
Lemma header_bytes_decode b hdr r E :
  binary_Read b 24 = inl (hdr, r) ->
  decoded_ExtendedSize b = Some E ->
  let large := ThreeUint8_eqb (Size (decode_FileHeader hdr)) (0xFF, 0xFF, 0xFF) in
  let hlen := if large then FileHeaderExtMinLength else FileHeaderMinLength in
  IsLarge (Attributes (decode_FileHeader hdr)) = large ->
  header_bytes (mkFileHeaderExtended (decode_FileHeader hdr) E)
  = firstn (Z.to_nat hlen) b
  /\ hlen <= Z.of_nat (length b).
Proof.
  intros R1 D large hlen HL. unfold decoded_ExtendedSize in D.
  rewrite R1 in D. fold large in D.
  apply binary_Read_inl in R1. destruct R1 as (Hh & Hr & L24).
  assert (length hdr = 24%nat) as LH by (rewrite Hh, length_firstn; lia).
  unfold header_bytes. cbn [FileHeader_ ExtendedSize]. rewrite HL.
  rewrite (encode_decode_FileHeader hdr LH).
  subst hlen. destruct large.
  - destruct (binary_Read r 8) as [[ext r']|e] eqn:R2; [|discriminate].
    assert (le_decode ext = E) as <- by congruence.
    apply binary_Read_inl in R2. destruct R2 as (He & _ & L8).
    assert (length ext = 8%nat) as LE by (rewrite He, length_firstn; lia).
    rewrite <- LE at 1. rewrite le_encode_decode.
    rewrite Hr, length_skipn in L8. split.
    + change (Z.to_nat FileHeaderExtMinLength) with (24 + 8)%nat.
      rewrite firstn_plus, <- Hh, <- Hr, <- He. reflexivity.
    + unfold FileHeaderExtMinLength. lia.
  - split; [exact Hh|]. unfold FileHeaderMinLength. lia.
Qed.

(** C1.  A well-formed file buffer (valid checksums, large bit in step with
    the size field, decoded size equal to the length of the buffer) that
    [NewFile] parses into a file is rebuilt byte for byte by
    [ChecksumAndAssemble] run on that file and on its body
    [buf[DataOffset:]], no field having been changed in between. *)
Theorem NewFile_ChecksumAndAssemble_roundtrip :
  forall (b : list byte) (f : File),
    well_formed b = true ->
    NewFile b = Returns (Some f, None) ->
    exists body f',
      slice_from (buf f) (DataOffset f) = Returns body /\
      ChecksumAndAssemble f body = Returns (f', None) /\
      buf f' = b.
Proof.
  intros b f W HN.
  destruct (NewFile_shape b f HN) as (hdr & r & E & R1 & D & HH & HD & HE & HB).
  unfold well_formed in W. rewrite R1, D in W. cbv zeta in W.
  set (large := ThreeUint8_eqb (Size (decode_FileHeader hdr)) (0xFF, 0xFF, 0xFF))
    in *.
  set (hlen := if large then FileHeaderExtMinLength else FileHeaderMinLength)
    in *.
  repeat rewrite andb_true_iff in W. destruct W as [[[W1 W2] W3] W4].
  apply Bool.eqb_prop in W1. apply Z.eqb_eq in W2, W3.
  destruct (header_bytes_decode b hdr r E R1 D W1) as [HBD HLEN].
  fold large in HBD, HLEN. fold hlen in HBD, HLEN.
  assert (0 <= hlen) as HP by (subst hlen; destruct large; cbv; discriminate).
  assert (buf f = b) as HB'.
  { rewrite HB, W2, Nat2Z.id. apply firstn_all. }
  assert (length (GUID (fh_of f)) = 16%nat) as G.
  { unfold fh_of. rewrite HH. cbn [FileHeader_ decode_FileHeader GUID].
    apply binary_Read_inl in R1. destruct R1 as (Hh & _ & L24).
    rewrite Hh, firstn_firstn, length_firstn. lia. }
  exists (skipn (Z.to_nat hlen) b). eexists. split; [|split].
  - rewrite HB', HD. unfold slice_from.
    replace (hlen <? 0) with false by (symmetry; apply Z.ltb_ge; lia).
    replace (Z.of_nat (length b) <? hlen) with false
      by (symmetry; apply Z.ltb_ge; lia).
    reflexivity.
  - apply ChecksumAndAssemble_eq. exact G.
  - cbn [buf]. unfold fh_of. rewrite HH. cbn [FileHeader_ ExtendedSize].
    rewrite HBD, W3.
    set (fh := decode_FileHeader hdr) in *.
    assert (set_Checksum fh
              (mkIntegrityCheck (u8 (IC_Header (Checksum fh) - 0))
                 (if HasChecksum (Attributes fh)
                  then u8 (0 - Checksum8 (skipn (Z.to_nat hlen) b))
                  else EmptyBodyChecksum)) = fh) as ->.
    { assert (0 <= IC_Header (Checksum fh) < 256) as RH
        by apply byte_at_range.
      assert (0 <= IC_File (Checksum fh) < 256) as RF
        by apply byte_at_range.
      assert (u8 (IC_Header (Checksum fh) - 0) = IC_Header (Checksum fh))
        as -> by (rewrite Z.sub_0_r; apply u8_small; exact RH).
      assert ((if HasChecksum (Attributes fh)
               then u8 (0 - Checksum8 (skipn (Z.to_nat hlen) b))
               else EmptyBodyChecksum) = IC_File (Checksum fh)) as ->.
      { destruct (HasChecksum (Attributes fh)); apply Z.eqb_eq in W4.
        - pose proof (Checksum8_range (skipn (Z.to_nat hlen) b)) as RC.
          revert W4 RC. generalize (Checksum8 (skipn (Z.to_nat hlen) b)).
          intros c W4 RC. unfold u8 in *. Z.div_mod_to_equations. lia.
        - symmetry. exact W4. }
      destruct fh as [g [H F] T A S St]. reflexivity. }
    rewrite HBD. apply firstn_skipn.
Qed.

End Parse.

(** A driver file with three sections is parsed and rebuilt. *)
Lemma NewFile_ChecksumAndAssemble_roundtrip_witness :
  well_formed example_driver_bytes = true /\
  exists f body f',
    example_NewFile example_driver_bytes = Returns (Some f, None) /\
    Sections f = [5; 6; 4] /\
    slice_from (buf f) (DataOffset f) = Returns body /\
    ChecksumAndAssemble f body = Returns (f', None) /\
    buf f' = example_driver_bytes.
Proof.
  split; [vm_compute; reflexivity|].
  assert (exists f, example_NewFile example_driver_bytes = Returns (Some f, None)
                    /\ Sections f = [5; 6; 4]) as (f & HN & HS).
  { eexists. split; vm_compute; reflexivity. }
  destruct (NewFile_ChecksumAndAssemble_roundtrip Z (fun s => s) unit
              example_NewSection example_NewNVarStore example_NVAR false
              example_driver_bytes f eq_refl HN) as (body & f' & H1 & H2 & H3).
  exists f, body, f'. auto.
Defined.

(** Parsing does not validate checksums and assembling recomputes them: a
    buffer with a stale header checksum is parsed, and rebuilt with the
    checksum put right, so not byte for byte. *)
Lemma stale_checksum_is_repaired :
  well_formed example_stale_bytes = false /\
  exists f body f',
    example_NewFile example_stale_bytes = Returns (Some f, None) /\
    slice_from (buf f) (DataOffset f) = Returns body /\
    ChecksumAndAssemble f body = Returns (f', None) /\
    buf f' = example_driver_bytes /\
    buf f' <> example_stale_bytes.
Proof.
  split; [vm_compute; reflexivity|].
  eexists. eexists. eexists.
  split; [vm_compute; reflexivity|].
  split; [vm_compute; reflexivity|].
  split; [vm_compute; reflexivity|].
  split; [reflexivity|]. vm_compute. discriminate.
Qed.

(** A window of erased flash is the start of the free space. *)
Lemma NewFile_free_space_witness :
  example_NewFile erased_window = Returns (None, None).
Proof.
  apply (proj1 (NewFile_free_space Z (fun s => s) unit example_NewSection
                  example_NewNVarStore example_NVAR false erased_window)).
  exists (repeat Byte.xff 24), (repeat Byte.xff 8), (repeat Byte.xff 8), [].
  repeat split.
Defined.

Lemma NewFile_size_overflow_witness :
  decoded_ExtendedSize (firstn 30 example_driver_bytes) = Some 44 /\
  30 < 44 /\ 44 <> 0xFFFFFFFFFFFFFFFF /\
  example_NewFile (firstn 30 example_driver_bytes) =
  Returns (None,
           Some (ErrFileTooBig (firstn 16 example_driver_bytes) 44 30)).
Proof.
  split; [vm_compute; reflexivity|].
  split; [lia|]. split; [discriminate|].
  exact (NewFile_size_overflow Z (fun s => s) unit example_NewSection
           example_NewNVarStore example_NVAR false
           (firstn 30 example_driver_bytes) 44 eq_refl eq_refl
           ltac:(discriminate)).
Defined.

(** C7 as stated fails: on a window of erased flash the decoded extended
    size, [0xFFFFFFFFFFFFFFFF], exceeds the 32 bytes of the window, and
    [NewFile] returns no error. *)
Lemma free_space_is_not_an_overflow :
  ~ (forall (b : list byte) (E : Z),
        decoded_ExtendedSize b = Some E ->
        Z.of_nat (length b) < E ->
        exists e, example_NewFile b = Returns (None, Some e)).
Proof.
  intros C.
  destruct (C erased_window 0xFFFFFFFFFFFFFFFF eq_refl eq_refl) as [e He].
  vm_compute in He. discriminate He.
Qed.

(** ** The section walk runs within its fuel *)

Section ParseTotal.

Variable Section_ : Type.
Variable Section_ExtendedSize : Section_ -> Z.
Variable NVarStore_ : Type.
Variable NewSection : list byte -> Z -> Section_ + error.
Variable NewNVarStore : list byte -> option NVarStore_ * option error.
Variable NVAR : GUID_t.
Variable ReadOnly : bool.

(** The size a section reports is a [uint32]. *)
Hypothesis Section_ExtendedSize_range :
  forall s, 0 <= Section_ExtendedSize s < 2 ^ 32.

Lemma Align4_ge x : 0 <= x < 2 ^ 63 + 2 ^ 32 -> x <= Align4 x.
Proof.
  intros H. unfold Align4, u64.
  rewrite (Z.mod_small ((x + 3) / 4 * 4)); Z.div_mod_to_equations; lia.
Qed.

Lemma parseSections_fuel fuel :
  forall (f : File Section_ NVarStore_) i offset,
    ExtendedSize (Header f) < 2 ^ 63 ->
    ExtendedSize (Header f) - offset <= Z.of_nat fuel ->
    parseSections Section_ Section_ExtendedSize NVarStore_ NewSection fuel f i
      offset <> OutOfFuel.
Proof.
  induction fuel as [|fuel IH]; intros f i offset HE HF;
    cbn [parseSections];
    destruct (offset <? ExtendedSize (Header f)) eqn:LT;
    try discriminate; apply Z.ltb_lt in LT; [lia|].
  destruct (slice_from (buf f) offset) as [b| |] eqn:SL; cbn [obind];
    [|discriminate|unfold slice_from in SL; destruct (_ || _); discriminate].
  assert (0 <= offset) as HO.
  { unfold slice_from in SL. destruct (offset <? 0) eqn:O0; [discriminate|].
    apply Z.ltb_ge in O0. exact O0. }
  destruct (NewSection b i) as [s|e]; [|discriminate].
  destruct (Section_ExtendedSize s =? 0) eqn:Z0; [discriminate|].
  apply Z.eqb_neq in Z0. pose proof (Section_ExtendedSize_range s) as RS.
  apply IH; simpl_file; [exact HE|].
  assert (u64 (Section_ExtendedSize s) = Section_ExtendedSize s) as ->
    by (unfold u64; apply Z.mod_small; lia).
  assert (u64 (offset + Section_ExtendedSize s) = offset + Section_ExtendedSize s)
    as -> by (unfold u64; apply Z.mod_small; lia).
  pose proof (Align4_ge (offset + Section_ExtendedSize s) ltac:(lia)). lia.
Qed.

(** On a window shorter than 2^63 bytes, as every Go slice is, [NewFile]
    returns or panics: the fuel of the section walk is never used up. *)
Lemma NewFile_fuel b :
  Z.of_nat (length b) < 2 ^ 63 ->
  NewFile Section_ Section_ExtendedSize NVarStore_ NewSection NewNVarStore
    NVAR ReadOnly b <> OutOfFuel.
Proof.
  intros HL.
  assert (forall f : File Section_ NVarStore_,
             0 <= DataOffset f ->
             NewFile_body Section_ Section_ExtendedSize NVarStore_ NewSection
               NewNVarStore NVAR ReadOnly f b <> OutOfFuel) as HB.
  { intros f HD. unfold NewFile_body.
    destruct (Z.of_nat (length b) <? ExtendedSize (Header f)) eqn:EB;
      [discriminate|].
    apply Z.ltb_ge in EB.
    assert (forall fb,
               (if ReadOnly then slice_to b (ExtendedSize (Header f))
                else
                  newBuf <- slice_to b (ExtendedSize (Header f)) ;;
                  fresh <- make_bytes (ExtendedSize (Header f)) ;;
                  Returns (copy_bytes fresh newBuf)) = Returns fb ->
               Z.of_nat (length fb) = ExtendedSize (Header f)) as HF.
    { intros fb. unfold slice_to, make_bytes.
      destruct (ExtendedSize (Header f) <? 0) eqn:E0;
        [destruct ReadOnly; discriminate|].
      apply Z.ltb_ge in E0.
      destruct (Z.of_nat (length b) <? ExtendedSize (Header f));
        [destruct ReadOnly; discriminate|].
      cbn [orb obind]. destruct ReadOnly.
      - intros X. injection X as <-. rewrite length_firstn. lia.
      - destruct (2 ^ 63 <=? ExtendedSize (Header f)); [discriminate|].
        cbn [obind]. intros X. injection X as <-.
        rewrite copy_bytes_same_length
          by (rewrite repeat_length, length_firstn; lia).
        rewrite length_firstn. lia. }
    assert ((if ReadOnly then slice_to b (ExtendedSize (Header f))
             else
               newBuf <- slice_to b (ExtendedSize (Header f)) ;;
               fresh <- make_bytes (ExtendedSize (Header f)) ;;
               Returns (copy_bytes fresh newBuf)) <> OutOfFuel) as HNF.
    { unfold slice_to, make_bytes.
      destruct ReadOnly; repeat (destruct (_ || _); cbn [obind]);
        discriminate. }
    destruct (if ReadOnly then _ else _) as [fb| |]; cbn [obind];
      [|discriminate|congruence].
    specialize (HF fb eq_refl). clear HNF. simpl_file.
    match goal with
    | |- (f0 <- ?m ;; _) <> _ =>
        assert (forall f1, m = Returns f1 ->
                  Header f1 = Header f /\ DataOffset f1 = DataOffset f /\
                  buf f1 = fb) as HN;
        [|assert (m <> OutOfFuel) as HM;
          [|destruct m as [f1| |]; cbn [obind]; [|discriminate|congruence]]]
    end.
    { intros f1. destruct (_ && _).
      - destruct (slice_from _ _) as [body| |]; cbn [obind]; try discriminate.
        destruct (NewNVarStore body) as [ns e]. intros X. injection X as <-.
        simpl_file. auto.
      - intros X. injection X as <-. simpl_file. auto. }
    { destruct (_ && _); [|discriminate].
      destruct (slice_from _ _) as [body| |] eqn:SF; cbn [obind];
        try discriminate.
      - destruct (NewNVarStore body) as [ns e]. discriminate.
      - unfold slice_from in SF. destruct (_ || _); discriminate. }
    destruct (HN f1 eq_refl) as (H1 & H2 & H3). clear HN HM.
    destruct (negb _); [discriminate|].
    apply parseSections_fuel; rewrite H1, ?H2, ?H3; lia. }
  unfold NewFile.
  destruct (binary_Read b 24) as [[hdr r]|e]; [|discriminate].
  simpl_file.
  destruct (ThreeUint8_eqb _ _).
  - destruct (binary_Read r 8) as [[ext r']|e]; [|discriminate].
    destruct (_ =? _); [discriminate|].
    apply HB. simpl_file. cbv. discriminate.
  - apply HB. simpl_file. cbv. discriminate.
Qed.

End ParseTotal.

End uefi_spec.

Module cbfs_spec.
Import cbfs.

Section PayloadFacts.

Context {S : Type} {RS : ReadSeeker S}.
Variable SegEntry : SegmentType.
Variable Read_PayloadHeader : S -> S * (PayloadHeader * option error).

Let readSegments := (readSegments SegEntry Read_PayloadHeader).
Let Read := (Read SegEntry Read_PayloadHeader).

(** The loop leaves the record with the segments it had, those it read, and
    last of all a segment of type [SegEntry]; it touches nothing else. *)
Lemma readSegments_break fuel : forall (in_ : S) p in' p',
  readSegments fuel in_ p = Returns (in', p', None) ->
  exists news h,
    Segs p' = Segs p ++ news ++ [h] /\
    PH_Type h = SegEntry /\
    Forall (fun x => PH_Type x <> SegEntry) news /\
    File_ p' = File_ p /\ FData p' = FData p.
Proof.
  subst readSegments.
  induction fuel as [|fuel IH]; intros in_ p in' p'; cbn [cbfs.readSegments];
    [discriminate|].
  destruct (Read_PayloadHeader in_) as [in1 [h [e|]]]; [discriminate|].
  destruct (PH_Type h =? SegEntry) eqn:T.
  - intros X. injection X as <- <-. apply Z.eqb_eq in T.
    exists [], h. cbn [with_Segs Segs File_ FData app]. auto.
  - intros X. apply IH in X. apply Z.eqb_neq in T.
    destruct X as (news & h' & X1 & X2 & X3 & X4 & X5).
    cbn [with_Segs Segs File_ FData] in *.
    exists (h :: news), h'. rewrite X1, <- app_assoc. cbn [app]. auto.
Qed.

Lemma readBody_Segs (in_ : S) p in' p' e :
  readBody in_ p = Returns (in', p', e) -> Segs p' = Segs p.
Proof.
  unfold readBody.
  destruct (rs_Seek in_ 0 SeekCurrent) as [in1 [offset [se|]]].
  { intros X. injection X as <- <- <-. reflexivity. }
  destruct (_ <? 0). { intros X. injection X as <- <- <-. reflexivity. }
  destruct (_ =? 0). { intros X. injection X as <- <- <-. reflexivity. }
  destruct (make_bytes _) as [fresh| |]; cbn [obind]; try discriminate.
  destruct (rs_Read in1 fresh) as [in2 [[n data] [re|]]];
    intros X; injection X as <- <- <-; reflexivity.
Qed.

(** C8.  When [Read] completes without an error, the segment list of the
    record is not empty and its last element has the type [SegEntry]. *)
Theorem Read_ends_with_SegEntry :
  forall (fuel : nat) (in_ in' : S) (p p' : PayloadRecord),
    Read fuel in_ p = Returns (in', p', None) ->
    Segs p' <> [] /\
    exists segs h, Segs p' = segs ++ [h] /\ PH_Type h = SegEntry.
Proof.
  intros fuel in_ in' p p'. subst Read. unfold cbfs.Read.
  destruct (cbfs.readSegments SegEntry Read_PayloadHeader fuel in_ p)
    as [[[in1 p1] [e|]]| |] eqn:RS1; cbn [obind]; try discriminate.
  intros RB. apply readSegments_break in RS1.
  destruct RS1 as (news & h & X1 & X2 & _).
  apply readBody_Segs in RB. rewrite RB, X1.
  split.
  - rewrite app_assoc. intros C. apply app_eq_nil in C. destruct C as [_ C].
    discriminate C.
  - exists (Segs p ++ news), h. rewrite app_assoc. auto.
Qed.

Lemma i64_small z : - 2 ^ 63 <= z < 2 ^ 63 -> i64 z = z.
Proof. intros H. unfold i64. rewrite Z.mod_small; lia. Qed.


End PayloadFacts.

Lemma Read_ends_with_SegEntry_witness :
  exists in' p',
    Read example_SegEntry Reader_Read_PayloadHeader 3 example_stream
      (fst (NewPayloadRecord (example_File 58))) = Returns (in', p', None)
    /\ length (Segs p') = 2%nat
    /\ exists segs h, Segs p' = segs ++ [h] /\ PH_Type h = example_SegEntry.
Proof.
  eexists. eexists. split; [vm_compute; reflexivity|].
  split; [reflexivity|].
  exact (proj2 (Read_ends_with_SegEntry example_SegEntry
                  Reader_Read_PayloadHeader 3 example_stream _
                  (fst (NewPayloadRecord (example_File 58))) _ eq_refl)).
Defined.



(** ** [Read] returns *)

Lemma readBody_returns {S : Type} {RS : ReadSeeker S} (in_ : S) p :
  exists res, readBody in_ p = Returns res.
Proof.
  unfold readBody.
  destruct (rs_Seek in_ 0 SeekCurrent) as [in1 [offset [se|]]];
    [eexists; reflexivity|].
  set (bodySize := i64 (i64 (Size (File_ p)) - offset)).
  assert (bodySize < 2 ^ 63) as HB.
  { subst bodySize. generalize (i64 (Size (File_ p)) - offset). intros z.
    unfold i64. pose proof (Z.mod_pos_bound (z + 2 ^ 63) (2 ^ 64) ltac:(lia)).
    lia. }
  destruct (bodySize <? 0) eqn:E1; [eexists; reflexivity|].
  destruct (bodySize =? 0); [eexists; reflexivity|].
  unfold make_bytes. rewrite E1.
  replace (2 ^ 63 <=? bodySize) with false by (symmetry; apply Z.leb_gt; lia).
  cbn [orb obind].
  destruct (rs_Read in1 _) as [in2 [[n data] [re|]]]; eexists; reflexivity.
Qed.

Lemma readSegments_no_panic {S : Type} {RS : ReadSeeker S} SegEntry Rh fuel :
  forall (in_ : S) p, readSegments SegEntry Rh fuel in_ p <> Panics.
Proof.
  induction fuel as [|fuel IH]; intros in_ p; cbn [readSegments];
    [discriminate|].
  destruct (Rh in_) as [in1 [h [e|]]]; [discriminate|].
  destruct (PH_Type h =? SegEntry); [discriminate|]. apply IH.
Qed.

(** On a [bytes.Reader] every round of the loop takes 28 bytes or leaves
    with an error, so the loop runs within a fuel of one more than the number
    of headers the slice can hold. *)
Lemma Reader_readSegments_fuel SegEntry fuel :
  forall (r : Reader) p,
    0 <= i r ->
    Z.max 0 (Z.of_nat (length (s r)) - i r) < 28 * Z.of_nat fuel ->
    readSegments SegEntry Reader_Read_PayloadHeader fuel r p <> OutOfFuel.
Proof.
  induction fuel as [|fuel IH]; intros r p H0 HF; [lia|].
  cbn [readSegments]. unfold Reader_Read_PayloadHeader.
  destruct (Z.of_nat (length (s r)) <=? i r) eqn:E1; [discriminate|].
  apply Z.leb_gt in E1.
  destruct (length (skipn (Z.to_nat (i r)) (s r)) <? 28)%nat eqn:E2;
    [discriminate|].
  apply Nat.ltb_ge in E2. rewrite length_skipn in E2.
  destruct (PH_Type _ =? SegEntry); [discriminate|].
  apply IH; cbn [s i]; lia.
Qed.

Lemma Reader_Read_returns SegEntry (r : Reader) p :
  0 <= i r ->
  exists res,
    Read SegEntry Reader_Read_PayloadHeader (Datatypes.S (length (s r))) r p
    = Returns res.
Proof.
  intros H0. unfold Read.
  pose proof (Reader_readSegments_fuel SegEntry (Datatypes.S (length (s r)))
                r p H0 ltac:(lia)) as NF.
  pose proof (readSegments_no_panic SegEntry Reader_Read_PayloadHeader
                (Datatypes.S (length (s r))) r p) as NP.
  destruct (readSegments _ _ _ _ _) as [[[in1 p1] [e|]]| |]; cbn [obind];
    try congruence.
  - eexists; reflexivity.
  - apply readBody_returns.
Qed.

End cbfs_spec.

(** * More properties of [file.go] *)

Module uefi_more_spec.
Import uefi uefi_more uefi_spec.

(** ** Assembling *)

(** Whatever the file checksum, the patched header checksum brings the sum of
    the header to zero. *)
Lemma header_sum_patched (fh : FileHeader) (E F' : Z) :
  let H' :=
    u8 (IC_Header (Checksum fh)
        - header_sum fh (header_bytes (mkFileHeaderExtended fh E))) in
  let fh' := set_Checksum fh (mkIntegrityCheck H' F') in
  header_sum fh' (header_bytes (mkFileHeaderExtended fh' E)) = 0.
Proof.
  destruct fh as [g [H F] T A [[s0 s1] s2] St]. cbv zeta.
  unfold header_bytes, header_sum. simpl_file.
  destruct (IsLarge A);
    rewrite !Checksum8_sumZ, ?sumZ_app, !sumZ_encode_FileHeader; simpl_file.
  - generalize (sumZ (le_encode 8 E)) as X. intros X.
    unfold u8. Z.div_mod_to_equations. lia.
  - unfold u8. Z.div_mod_to_equations. lia.
Qed.

Lemma ChecksumAndAssemble_layout_core :
  forall (Section_ NVarStore_ : Type) (f : File Section_ NVarStore_)
         (body : list byte),
    length (GUID (fh_of f)) = 16%nat ->
    exists f',
      ChecksumAndAssemble f body = Returns (f', None)
      /\ Z.of_nat (length (buf f')) = HeaderLen f + Z.of_nat (length body)
      /\ slice_to (buf f') (HeaderLen f') = Returns (header_bytes (Header f'))
      /\ slice_from (buf f') (HeaderLen f') = Returns body
      /\ set_Checksum (fh_of f') (Checksum (fh_of f)) = fh_of f
      /\ ExtendedSize (Header f') = ExtendedSize (Header f)
      /\ Type_str f' = Type_str f /\ Sections f' = Sections f
      /\ NVarStore f' = NVarStore f /\ ExtractPath f' = ExtractPath f
      /\ DataOffset f' = DataOffset f.
Proof.
  intros S_ N_ f body G. eexists. split.
  { apply ChecksumAndAssemble_eq. exact G. }
  cbv zeta. cbn [buf Header Type_str Sections NVarStore ExtractPath DataOffset].
  set (h' := mkFileHeaderExtended _ (ExtendedSize (Header f))).
  assert (length (GUID (FileHeader_ h')) = 16%nat) as G' by exact G.
  pose proof (IsLarge_header_length h' G') as L.
  assert (Attributes (FileHeader_ h') = Attributes (fh_of f)) as EA
    by reflexivity.
  unfold HeaderLen, fh_of. cbn [Header]. rewrite EA in *. fold (fh_of f).
  repeat split.
  - rewrite length_app, Nat2Z.inj_add, L. reflexivity.
  - apply slice_to_app. exact L.
  - unfold slice_from. rewrite length_app, Nat2Z.inj_add, L.
    set (n := if IsLarge (Attributes (fh_of f)) then FileHeaderExtMinLength
              else FileHeaderMinLength) in *.
    assert (0 <= n) as HP by lia.
    replace (n <? 0) with false by (symmetry; apply Z.ltb_ge; lia).
    replace (n + Z.of_nat (length body) <? n) with false
      by (symmetry; apply Z.ltb_ge; lia).
    cbn [orb]. f_equal. rewrite <- L, Nat2Z.id.
    rewrite skipn_app, skipn_all, Nat.sub_diag. reflexivity.
  - subst h'. cbn [FileHeader_]. destruct (fh_of f) as [g [H F] T A S St].
    reflexivity.
Qed.

(** X1.  On a file whose GUID has its 16 bytes [ChecksumAndAssemble] neither
    fails nor panics.  The buffer it leaves is the header, of [HeaderLen]
    bytes, followed by the body as given.  Of the file it changes the two
    checksums and the buffer, and nothing else: the sizes in particular stay
    as the caller set them. *)
Theorem ChecksumAndAssemble_layout :
  forall (Section_ NVarStore_ : Type) (f : File Section_ NVarStore_)
         (body : list byte),
    length (GUID (fh_of f)) = 16%nat ->
    exists f',
      ChecksumAndAssemble f body = Returns (f', None)
      /\ Z.of_nat (length (buf f')) = HeaderLen f + Z.of_nat (length body)
      /\ slice_to (buf f') (HeaderLen f') = Returns (header_bytes (Header f'))
      /\ slice_from (buf f') (HeaderLen f') = Returns body
      /\ set_Checksum (fh_of f') (Checksum (fh_of f)) = fh_of f
      /\ ExtendedSize (Header f') = ExtendedSize (Header f)
      /\ Type_str f' = Type_str f /\ Sections f' = Sections f
      /\ NVarStore f' = NVarStore f /\ ExtractPath f' = ExtractPath f
      /\ DataOffset f' = DataOffset f.
Proof. exact ChecksumAndAssemble_layout_core. Qed.

Lemma ChecksumAndAssemble_layout_witness :
  exists f',
    ChecksumAndAssemble example_file [Byte.x01; Byte.x02] = Returns (f', None)
    /\ Z.of_nat (length (buf f')) = 26.
Proof.
  destruct (ChecksumAndAssemble_layout unit unit example_file
              [Byte.x01; Byte.x02] eq_refl) as (f' & H1 & H2 & _).
  exists f'. split; [exact H1|exact H2].
Defined.

(** X2.  Assembling is idempotent: run again on the file it produced and on
    the same body, [ChecksumAndAssemble] returns that file unchanged. *)
Theorem ChecksumAndAssemble_idempotent :
  forall (Section_ NVarStore_ : Type) (f f' : File Section_ NVarStore_)
         (body : list byte),
    length (GUID (fh_of f)) = 16%nat ->
    ChecksumAndAssemble f body = Returns (f', None) ->
    ChecksumAndAssemble f' body = Returns (f', None).
Proof.
  intros S_ N_ f f' body G HA.
  rewrite (ChecksumAndAssemble_eq _ _ f body G) in HA. cbv zeta in HA.
  injection HA as <-.
  rewrite ChecksumAndAssemble_eq by exact G. cbv zeta.
  destruct f as [[fh E] ts ss ns b ep d]. simpl_file.
  set (F' := if HasChecksum (Attributes fh) then _ else EmptyBodyChecksum).
  pose proof (header_sum_patched fh E F') as Z0. cbv zeta in Z0.
  destruct fh as [g [H F] T A S St]. simpl_file.
  rewrite Z0, Z.sub_0_r, (u8_small (u8 _)) by apply u8_range.
  subst F'. reflexivity.
Qed.

Lemma ChecksumAndAssemble_idempotent_witness :
  exists f',
    ChecksumAndAssemble example_file [Byte.x01; Byte.x02] = Returns (f', None)
    /\ ChecksumAndAssemble f' [Byte.x01; Byte.x02] = Returns (f', None).
Proof.
  eexists. split.
  - vm_compute. reflexivity.
  - exact (ChecksumAndAssemble_idempotent unit unit example_file _
             [Byte.x01; Byte.x02] eq_refl eq_refl).
Defined.

Lemma skipn_app_exact (a b : list byte) n :
  length a = n -> skipn n (a ++ b) = b.
Proof.
  intros <-. rewrite skipn_app, skipn_all, Nat.sub_diag. reflexivity.
Qed.

Lemma firstn_app_exact (a b : list byte) n :
  length a = n -> firstn n (a ++ b) = a.
Proof.
  intros <-. rewrite firstn_app, firstn_all, Nat.sub_diag. cbn [firstn].
  apply app_nil_r.
Qed.

Lemma decode_encode_FileHeader (fh : FileHeader) (rest : list byte) :
  header_in_range fh ->
  decode_FileHeader (encode_FileHeader fh ++ rest) = fh.
Proof.
  destruct fh as [g [H F] T A [[s0 s1] s2] St].
  unfold header_in_range, is_uint8. simpl_file.
  intros (G & RH & RF & RT & RA & (R0 & R1 & R2) & RS).
  do 16 (destruct g as [|? g]; [discriminate G|]).
  destruct g; [|discriminate G].
  unfold encode_FileHeader, decode_FileHeader, byte_at. simpl_file.
  cbn [app firstn nth]. rewrite !b2z_z2b, !u8_small by assumption.
  reflexivity.
Qed.

Lemma ChecksumAndAssemble_decodes_core :
  forall (Section_ NVarStore_ : Type) (f f' : File Section_ NVarStore_)
         (body : list byte),
    header_in_range (fh_of f) ->
    0 <= ExtendedSize (Header f) < 2 ^ 64 ->
    ChecksumAndAssemble f body = Returns (f', None) ->
    decode_FileHeader (buf f') = fh_of f'
    /\ header_in_range (fh_of f')
    /\ (IsLarge (Attributes (fh_of f')) = true ->
        le_decode (firstn 8 (skipn 24 (buf f'))) = ExtendedSize (Header f')).
Proof.
  intros S_ N_ f f' body R RE HA.
  assert (length (GUID (fh_of f)) = 16%nat) as G by apply R.
  rewrite (ChecksumAndAssemble_eq _ _ f body G) in HA. cbv zeta in HA.
  injection HA as <-. cbn [buf fh_of Header FileHeader_ ExtendedSize].
  fold (fh_of f).
  set (fh' := set_Checksum (fh_of f) _).
  assert (header_in_range fh') as R'.
  { subst fh'. destruct (fh_of f) as [g [H F] T A [[s0 s1] s2] St].
    unfold header_in_range, is_uint8 in *. simpl_file.
    destruct R as (G' & RH & RF & RT & RA & RZ & RS).
    repeat split; try apply u8_range; try apply RZ; try lia.
    - destruct (HasChecksum A); [apply u8_range|cbv; discriminate].
    - destruct (HasChecksum A); [apply u8_range|reflexivity]. }
  assert (length (encode_FileHeader fh') = 24%nat) as L
    by (apply encode_FileHeader_length; apply R').
  split; [|split; [exact R'|]].
  - unfold header_bytes. cbn [FileHeader_ ExtendedSize].
    destruct (IsLarge (Attributes fh'));
      rewrite <- ?app_assoc; apply decode_encode_FileHeader; exact R'.
  - intros HL. unfold header_bytes. cbn [FileHeader_ ExtendedSize].
    rewrite HL, <- app_assoc.
    rewrite (skipn_app_exact _ _ _ L).
    rewrite (firstn_app_exact _ _ _ (le_encode_length 8 _)).
    rewrite le_decode_encode. apply Z.mod_small.
    change (256 ^ Z.of_nat 8) with (2 ^ 64). exact RE.
Qed.

(** X3.  The buffer [ChecksumAndAssemble] leaves holds the header of the
    file: decoded as [NewFile] decodes it, the first 24 bytes give back every
    field, the two new checksums included, and for a large file the next 8
    bytes give back the extended size. *)
Theorem ChecksumAndAssemble_decodes :
  forall (Section_ NVarStore_ : Type) (f f' : File Section_ NVarStore_)
         (body : list byte),
    header_in_range (fh_of f) ->
    0 <= ExtendedSize (Header f) < 2 ^ 64 ->
    ChecksumAndAssemble f body = Returns (f', None) ->
    decode_FileHeader (buf f') = fh_of f'
    /\ header_in_range (fh_of f')
    /\ (IsLarge (Attributes (fh_of f')) = true ->
        le_decode (firstn 8 (skipn 24 (buf f'))) = ExtendedSize (Header f')).
Proof. exact ChecksumAndAssemble_decodes_core. Qed.

Lemma ChecksumAndAssemble_decodes_witness :
  exists f',
    ChecksumAndAssemble example_file [Byte.x01; Byte.x02] = Returns (f', None)
    /\ decode_FileHeader (buf f') = fh_of f'.
Proof.
  eexists. split.
  - vm_compute. reflexivity.
  - refine (proj1 (ChecksumAndAssemble_decodes unit unit example_file _
                     [Byte.x01; Byte.x02] _ _ eq_refl)).
    + cbv. repeat split; congruence.
    + cbv. split; congruence.
Defined.

(** Without the body-checksum bit the file checksum is [0xAA]. *)
Lemma ChecksumAndAssemble_file_checksum_only
  (Section_ NVarStore_ : Type) (f f' : File Section_ NVarStore_) body :
  ChecksumAndAssemble f body = Returns (f', None) ->
  HasChecksum (Attributes (fh_of f')) = false ->
  IC_File (Checksum (fh_of f')) = 0xAA.
Proof.
  destruct f as [[fh E] ts ss ns b ep d].
  destruct fh as [g [H F] T A [[s0 s1] s2] St].
  unfold ChecksumAndAssemble, binary_Write_FileHeaderExtended,
    binary_Write_FileHeader, ChecksumHeader. simpl_file.
  destruct (slice_to _ _) as [hb| |]; cbn [obind]; try discriminate.
  simpl_file.
  destruct (HasChecksum A) eqn:HC; simpl_file;
    destruct (IsLarge A); intros X; injection X as <-; simpl_file;
    rewrite HC; intros Y; try discriminate; reflexivity.
Qed.

(** ** Pad files of every size *)

Lemma map_const_repeat (c : byte) n :
  map (fun _ : byte => c) (repeat Byte.x00 n) = repeat c n.
Proof. induction n as [|n IH]; cbn [repeat map]; [reflexivity|]. now rewrite IH. Qed.

Section Pad.

Variables Section_ NVarStore_ : Type.

(** The file [CreatePadFile] hands to [ChecksumAndAssemble]. *)
Let pad_file (polarity size : Z) : File Section_ NVarStore_ :=
  mkFile
    (mkFileHeaderExtended
       (mkFileHeader FFGUID (mkIntegrityCheck 0 0) FVFileTypePad
          (if 0xFFFFFF <? size then 1 else 0) (Write3Size size)
          (Z.lxor FileStateValid polarity)) size)
    "EFI_FV_FILETYPE_FFS_PAD" [] None [] EmptyString 0.

Lemma CreatePadFile_assembles polarity size :
  24 <= size < 2 ^ 63 ->
  CreatePadFile Section_ NVarStore_ polarity size =
  r <- ChecksumAndAssemble (pad_file polarity size)
         (repeat (z2b polarity)
            (Z.to_nat (size - (if 0xFFFFFF <? size then 32 else 24)))) ;;
  match r with
  | (_, Some err) => Returns (None, Some err)
  | (f, None) => Returns (Some f, None)
  end.
Proof.
  intros HS. unfold CreatePadFile, pad_file.
  replace (size <? FileHeaderMinLength) with false
    by (symmetry; apply Z.ltb_ge; unfold FileHeaderMinLength; lia).
  rewrite orb_true_r. unfold SetSize. simpl_file.
  unfold make_bytes, FileHeaderMinLength, FileHeaderExtMinLength, u64.
  rewrite (Z.mod_small (size - 24)) by lia.
  replace (size - 24 <? 0) with false by (symmetry; apply Z.ltb_ge; lia).
  replace (2 ^ 63 <=? size - 24) with false by (symmetry; apply Z.leb_gt; lia).
  cbn [orb obind].
  destruct (0xFFFFFF <? size) eqn:EL; simpl_file.
  - apply Z.ltb_lt in EL.
    change (IsLarge (setLarge (setLarge 0 false) true)) with true. cbv iota.
    rewrite (Z.mod_small (size - 32)) by lia.
    replace (size - 32 <? 0) with false by (symmetry; apply Z.ltb_ge; lia).
    replace (2 ^ 63 <=? size - 32) with false
      by (symmetry; apply Z.leb_gt; lia).
    cbn [orb obind]. rewrite map_const_repeat. reflexivity.
  - change (IsLarge (setLarge 0 false)) with false. cbv iota.
    cbn [obind]. rewrite map_const_repeat. reflexivity.
Qed.

Lemma CreatePadFile_any_size_core :
  forall polarity size : Z,
    24 <= size < 2 ^ 63 ->
    exists f : File Section_ NVarStore_,
      CreatePadFile Section_ NVarStore_ polarity size = Returns (Some f, None)
      /\ Z.of_nat (length (buf f)) = size
      /\ HeaderLen f = (if 0xFFFFFF <? size then 32 else 24)
      /\ slice_from (buf f) (HeaderLen f)
         = Returns (repeat (z2b polarity) (Z.to_nat (size - HeaderLen f)))
      /\ GUID (fh_of f) = repeat Byte.xff 16
      /\ Type_ (fh_of f) = FVFileTypePad
      /\ Type_str f = "EFI_FV_FILETYPE_FFS_PAD"%string
      /\ Attributes (fh_of f) = (if 0xFFFFFF <? size then 1 else 0)
      /\ ExtendedSize (Header f) = size
      /\ Size (fh_of f) = Write3Size size
      /\ Z.lxor (State (fh_of f)) polarity = FileStateValid
      /\ IC_File (Checksum (fh_of f)) = 0xAA.
Proof.
  intros polarity size HS.
  set (body := repeat (z2b polarity)
                 (Z.to_nat (size - (if 0xFFFFFF <? size then 32 else 24)))).
  pose proof (CreatePadFile_assembles polarity size HS) as E. fold body in E.
  destruct (ChecksumAndAssemble_layout_core Section_ NVarStore_
              (pad_file polarity size) body eq_refl)
    as (f & HA & HLen & _ & HBody & HF & HE & HT & _).
  pose proof (ChecksumAndAssemble_file_checksum_only Section_ NVarStore_
                (pad_file polarity size) f body HA) as HC.
  rewrite HA in E. cbn [obind] in E. exists f.
  assert (HeaderLen (pad_file polarity size)
          = (if 0xFFFFFF <? size then 32 else 24)) as HL0
    by (unfold HeaderLen, pad_file; simpl_file;
        destruct (0xFFFFFF <? size); reflexivity).
  assert (Attributes (fh_of f) = (if 0xFFFFFF <? size then 1 else 0)) as HAt
    by (apply (f_equal Attributes) in HF; exact HF).
  assert (HeaderLen f = (if 0xFFFFFF <? size then 32 else 24)) as HL
    by (unfold HeaderLen; rewrite HAt; destruct (0xFFFFFF <? size);
        reflexivity).
  split; [exact E|].
  split.
  { rewrite HLen, HL0. subst body. rewrite repeat_length.
    destruct (0xFFFFFF <? size) eqn:EL; [apply Z.ltb_lt in EL|]; lia. }
  split; [exact HL|].
  split; [rewrite HBody, HL; reflexivity|].
  split; [apply (f_equal GUID) in HF; exact HF|].
  split; [apply (f_equal Type_) in HF; exact HF|].
  split; [exact HT|].
  split; [exact HAt|].
  split; [exact HE|].
  split; [apply (f_equal Size) in HF; exact HF|].
  split.
  { apply (f_equal State) in HF. cbn [State set_Checksum] in HF.
    simpl_file. rewrite HF. unfold pad_file. simpl_file.
    rewrite Z.lxor_assoc, Z.lxor_nilpotent, Z.lxor_0_r. reflexivity. }
  apply HC. rewrite HAt. destruct (0xFFFFFF <? size); reflexivity.
Qed.


End Pad.


(** ** Parsing: errors, opaque files, what a parsed file holds *)

Lemma decode_FileHeader_firstn (b : list byte) :
  decode_FileHeader (firstn 24 b) = decode_FileHeader b.
Proof.
  unfold decode_FileHeader, byte_at. rewrite firstn_firstn.
  rewrite !nth_firstn. reflexivity.
Qed.

Section ParseMore.

Variable Section_ : Type.
Variable Section_ExtendedSize : Section_ -> Z.
Variable NVarStore_ : Type.
Variable NewSection : list byte -> Z -> Section_ + error.
Variable NewNVarStore : list byte -> option NVarStore_ * option error.
Variable NVAR : GUID_t.
Variable ReadOnly : bool.

Let File := (File Section_ NVarStore_).
Let parseSections := (parseSections Section_ Section_ExtendedSize NVarStore_
                        NewSection).
Let NewFile_body := (NewFile_body Section_ Section_ExtendedSize NVarStore_
                       NewSection NewNVarStore NVAR ReadOnly).
Let NewFile := (NewFile Section_ Section_ExtendedSize NVarStore_ NewSection
                  NewNVarStore NVAR ReadOnly).

(** The buffer [NewFile] binds to the file, borrowed or copied. *)
Lemma bound_buffer (b : list byte) (E : Z) :
  0 <= E <= Z.of_nat (length b) -> E < 2 ^ 63 ->
  (if ReadOnly then slice_to b E
   else
     newBuf <- slice_to b E ;;
     fresh <- make_bytes E ;;
     Returns (copy_bytes fresh newBuf)) = Returns (firstn (Z.to_nat E) b).
Proof.
  intros HE HB. unfold slice_to, make_bytes.
  replace (E <? 0) with false by (symmetry; apply Z.ltb_ge; lia).
  replace (Z.of_nat (length b) <? E) with false
    by (symmetry; apply Z.ltb_ge; lia).
  replace (2 ^ 63 <=? E) with false by (symmetry; apply Z.leb_gt; lia).
  cbn [orb obind]. destruct ReadOnly; [reflexivity|]. f_equal.
  apply copy_bytes_same_length. rewrite repeat_length, length_firstn. lia.
Qed.

(** A file of a type that is not parsed for sections, and that is not the
    raw file of the NVRAM store, is returned with its buffer bound and
    nothing else done. *)
Lemma NewFile_body_opaque (f : File) (b : list byte) :
  0 <= ExtendedSize (Header f) <= Z.of_nat (length b) ->
  ExtendedSize (Header f) < 2 ^ 63 ->
  SupportedFiles_at (Type_ (fh_of f)) = false ->
  (Type_ (fh_of f) =? FVFileTypeRaw) && bytes_eqb (GUID (fh_of f)) NVAR
  = false ->
  NewFile_body f b =
  Returns (Some (SetBuf f (firstn (Z.to_nat (ExtendedSize (Header f))) b)),
           None).
Proof.
  intros HE HB HS HR. subst NewFile_body. unfold uefi.NewFile_body.
  replace (Z.of_nat (length b) <? ExtendedSize (Header f)) with false
    by (symmetry; apply Z.ltb_ge; lia).
  rewrite (bound_buffer b _ HE HB). cbn [obind]. unfold fh_of in *.
  simpl_file. rewrite HR. cbn [obind]. simpl_file. rewrite HS. reflexivity.
Qed.

(** X5.  A window too short for the header is an error, never a panic:
    [io.EOF] when the window is empty, [io.ErrUnexpectedEOF] when it holds 1
    to 23 bytes.  The same holds of the 8 bytes of the extended size that the
    size [{0xFF,0xFF,0xFF}] calls for: [io.EOF] when the window stops at the
    header, [io.ErrUnexpectedEOF] when it holds 25 to 31 bytes. *)
Theorem NewFile_truncated :
  forall b : list byte,
    ((length b < 24)%nat ->
     NewFile b =
     Returns (None, Some (if (length b =? 0)%nat then EOF
                          else ErrUnexpectedEOF)))
    /\ ((24 <= length b < 32)%nat ->
        Size (decode_FileHeader b) = (0xFF, 0xFF, 0xFF) ->
        NewFile b =
        Returns (None, Some (if (length b =? 24)%nat then EOF
                             else ErrUnexpectedEOF))).
Proof.
  intros b. subst NewFile. unfold uefi.NewFile. split.
  - intros HL. unfold binary_Read. destruct b as [|x b]; [reflexivity|].
    replace (length (x :: b) <? 24)%nat with true
      by (symmetry; apply Nat.ltb_lt; exact HL).
    reflexivity.
  - intros HL HS.
    assert (binary_Read b 24 = inl (firstn 24 b, skipn 24 b)) as ->.
    { unfold binary_Read. destruct b as [|x b]; [cbn in HL; lia|].
      replace (length (x :: b) <? 24)%nat with false
        by (symmetry; apply Nat.ltb_ge; lia).
      reflexivity. }
    simpl_file. rewrite decode_FileHeader_firstn, HS.
    change (ThreeUint8_eqb (0xFF, 0xFF, 0xFF) (0xFF, 0xFF, 0xFF)) with true.
    cbv iota. unfold binary_Read.
    pose proof (length_skipn 24 b) as LS.
    destruct (skipn 24 b) as [|y r] eqn:ES.
    + cbn [length] in LS.
      replace (length b =? 24)%nat with true
        by (symmetry; apply Nat.eqb_eq; lia).
      reflexivity.
    + cbn [length] in LS.
      replace (length b =? 24)%nat with false
        by (symmetry; apply Nat.eqb_neq; lia).
      replace (length (y :: r) <? 8)%nat with true
        by (symmetry; apply Nat.ltb_lt; cbn [length]; lia).
      reflexivity.
Qed.

Lemma Write3Size_below (size : Z) :
  0 <= size < 0xFFFFFF ->
  ThreeUint8_eqb (Write3Size size) (0xFF, 0xFF, 0xFF) = false.
Proof.
  intros HS. destruct (ThreeUint8_eqb _ _) eqn:E; [|reflexivity].
  apply ThreeUint8_eqb_eq in E.
  pose proof (Read3Size_Write3Size size ltac:(lia)) as R. rewrite E in R.
  cbn [Read3Size] in R. lia.
Qed.

Lemma log2_uint8 (a : Z) : 0 <= a < 256 -> Z.log2 a < 8.
Proof.
  intros Ha. destruct (Z.eq_dec a 0) as [->|NZ]; [cbn; lia|].
  apply (proj1 (Z.log2_lt_pow2 a 8 ltac:(lia))). change (2 ^ 8) with 256. lia.
Qed.

Lemma lxor_uint8 (a b : Z) :
  0 <= a < 256 -> 0 <= b < 256 -> 0 <= Z.lxor a b < 256.
Proof.
  intros Ha Hb.
  assert (0 <= Z.lxor a b) as NN by (apply Z.lxor_nonneg; lia).
  split; [exact NN|].
  destruct (Z.eq_dec (Z.lxor a b) 0) as [->|NZ]; [lia|].
  change 256 with (2 ^ 8).
  apply (proj2 (Z.log2_lt_pow2 (Z.lxor a b) 8 ltac:(lia))).
  eapply Z.le_lt_trans; [apply Z.log2_lxor; lia|].
  apply Z.max_lub_lt; apply log2_uint8; assumption.
Qed.

(** X6.  A pad file comes back from the parser: for every size from 24 up
    other than [0xFFFFFF], the buffer [CreatePadFile] builds is accepted by
    [NewFile], which returns a file with the same header and the same
    buffer, the data offset at the length of the header, no section and no
    store.  (The size [0xFFFFFF] is left out: see
    [CreatePadFile_sentinel_size].) *)
Theorem CreatePadFile_NewFile :
  forall (polarity size : Z) (f : File),
    0 <= polarity < 256 ->
    24 <= size < 2 ^ 63 ->
    size <> 0xFFFFFF ->
    CreatePadFile Section_ NVarStore_ polarity size = Returns (Some f, None) ->
    exists g : File,
      NewFile (buf f) = Returns (Some g, None)
      /\ Header g = Header f /\ buf g = buf f
      /\ DataOffset g = HeaderLen f
      /\ Type_str g = Type_str f
      /\ Sections g = [] /\ NVarStore g = None.
Proof.
  intros polarity size f HP HS NS HC.
  destruct (CreatePadFile_any_size_core Section_ NVarStore_ polarity size HS)
    as (f0 & HC0 & HLen & HHL & _ & HG & HT & HTs & HA & HE & HSz & HSt & _).
  assert (f0 = f) as -> by congruence. clear HC0.
  (* the buffer decodes to the header *)
  rewrite CreatePadFile_assembles in HC by exact HS.
  destruct (ChecksumAndAssemble _ _) as [[f1 [e|]]| |] eqn:HAs;
    cbn [obind] in HC; try discriminate.
  assert (f1 = f) as -> by congruence. clear HC.
  apply ChecksumAndAssemble_decodes_core in HAs.
  2:{ unfold header_in_range, is_uint8. simpl_file.
      pose proof (lxor_uint8 FileStateValid polarity ltac:(cbv; split; congruence) HP).
      repeat split; try (cbv; congruence); try lia.
      - destruct (0xFFFFFF <? size); cbv; congruence.
      - destruct (0xFFFFFF <? size); cbv; congruence.
      - unfold Write3Size. destruct (0xFFFFFF <? size).
        + cbv. repeat split; congruence.
        + repeat split; apply u8_range. }
  2:{ simpl_file. lia. }
  destruct HAs as (HD & HR & HX).
  assert (buf f <> []) as NE.
  { intros C. rewrite C in HLen. cbn in HLen. lia. }
  assert (binary_Read (buf f) 24 = inl (firstn 24 (buf f), skipn 24 (buf f)))
    as R1.
  { unfold binary_Read. destruct (buf f) as [|x l] eqn:EB; [congruence|].
    replace (length (x :: l) <? 24)%nat with false
      by (symmetry; apply Nat.ltb_ge; lia).
    reflexivity. }
  assert (SupportedFiles_at (Type_ (fh_of f)) = false) as HSup
    by (rewrite HT; reflexivity).
  assert ((Type_ (fh_of f) =? FVFileTypeRaw) && bytes_eqb (GUID (fh_of f)) NVAR
          = false) as HRaw by (rewrite HT; reflexivity).
  subst NewFile. unfold uefi.NewFile. rewrite R1. simpl_file.
  rewrite decode_FileHeader_firstn, HD, HSz, HT.
  change (FVFileType_String FVFileTypePad) with "EFI_FV_FILETYPE_FFS_PAD"%string.
  destruct (0xFFFFFF <? size) eqn:EL.
  - (* large *)
    apply Z.ltb_lt in EL. unfold Write3Size.
    replace (0xFFFFFF <? size) with true by (symmetry; apply Z.ltb_lt; lia).
    change (ThreeUint8_eqb (0xFF, 0xFF, 0xFF) (0xFF, 0xFF, 0xFF)) with true.
    cbv iota.
    assert (binary_Read (skipn 24 (buf f)) 8
            = inl (firstn 8 (skipn 24 (buf f)), skipn 8 (skipn 24 (buf f))))
      as R2.
    { unfold binary_Read. pose proof (length_skipn 24 (buf f)) as LS.
      destruct (skipn 24 (buf f)) as [|y l] eqn:EB; [cbn in LS; lia|].
      replace (length (y :: l) <? 8)%nat with false
        by (symmetry; apply Nat.ltb_ge; lia).
      reflexivity. }
    rewrite R2. simpl_file.
    rewrite HX by (rewrite HA; reflexivity). rewrite HE.
    replace (size =? 0xFFFFFFFFFFFFFFFF) with false
      by (symmetry; apply Z.eqb_neq; lia).
    fold NewFile_body. rewrite NewFile_body_opaque; simpl_file;
      try assumption; try lia; try (rewrite ?HD, ?HT; reflexivity).
    eexists. split; [reflexivity|]. simpl_file.
    rewrite <- HLen at 2. rewrite Nat2Z.id, firstn_all, HHL, HTs.
    repeat split.
    rewrite <- HE. unfold fh_of. destruct (Header f). reflexivity.
  - (* standard *)
    apply Z.ltb_ge in EL.
    rewrite Write3Size_below by lia.
    rewrite Read3Size_Write3Size by lia. rewrite Z.min_l by lia.
    fold NewFile_body. rewrite NewFile_body_opaque; simpl_file;
      try assumption; try lia; try (rewrite ?HD, ?HT; reflexivity).
    eexists. split; [reflexivity|]. simpl_file.
    rewrite <- HLen at 2. rewrite Nat2Z.id, firstn_all, HHL, HTs.
    repeat split.
    rewrite <- HE. unfold fh_of. destruct (Header f). reflexivity.
Qed.

Lemma bytes_eqb_eq (a : list byte) : forall b, bytes_eqb a b = true <-> a = b.
Proof.
  induction a as [|x a IH]; intros [|y b]; cbn [bytes_eqb]; split;
    try discriminate; try reflexivity.
  - intros H. apply andb_true_iff in H. destruct H as [H1 H2].
    apply Byte.byte_dec_bl in H1. apply IH in H2. congruence.
  - intros H. injection H as -> ->. apply andb_true_iff. split.
    + apply Byte.byte_dec_lb. reflexivity.
    + apply IH. reflexivity.
Qed.

(** The section walk adds sections, each of a size other than zero, and
    touches nothing else. *)
Lemma parseSections_sections fuel : forall (f f' : File) i offset,
  parseSections fuel f i offset = Returns (Some f', None) ->
  Type_str f' = Type_str f /\ NVarStore f' = NVarStore f /\
  ExtractPath f' = ExtractPath f /\
  exists new,
    Sections f' = Sections f ++ new /\
    Forall (fun s => Section_ExtendedSize s <> 0) new.
Proof.
  subst parseSections.
  induction fuel as [|fuel IH]; intros f f' i offset; cbn [uefi.parseSections];
    destruct (offset <? ExtendedSize (Header f)); try discriminate.
  - intros X. injection X as <-. repeat split. exists []. rewrite app_nil_r.
    auto.
  - destruct (slice_from (buf f) offset) as [b| |]; cbn [obind];
      try discriminate.
    destruct (NewSection b i) as [s|e]; [|discriminate].
    destruct (Section_ExtendedSize s =? 0) eqn:Z0; [discriminate|].
    apply Z.eqb_neq in Z0. intros X. apply IH in X. simpl_file.
    destruct X as (X1 & X2 & X3 & new & X4 & X5).
    repeat split; try assumption.
    exists (s :: new). rewrite X4, <- app_assoc. split; [reflexivity|].
    constructor; assumption.
  - intros X. injection X as <-. repeat split. exists []. rewrite app_nil_r.
    auto.
Qed.

Lemma NewFile_body_children (f f' : File) (b : list byte) :
  NewFile_body f b = Returns (Some f', None) ->
  Type_str f' = Type_str f /\ ExtractPath f' = ExtractPath f /\
  (exists new,
      Sections f' = Sections f ++ new /\
      Forall (fun s => Section_ExtendedSize s <> 0) new /\
      (SupportedFiles_at (Type_ (fh_of f)) = false -> new = [])) /\
  (NVarStore f' = NVarStore f \/
   (Type_ (fh_of f) = FVFileTypeRaw /\ GUID (fh_of f) = NVAR)).
Proof.
  subst NewFile_body. unfold uefi.NewFile_body.
  destruct (Z.of_nat (length b) <? ExtendedSize (Header f)); [discriminate|].
  destruct (if ReadOnly then _ else _) as [fb| |]; cbn [obind];
    try discriminate.
  unfold fh_of. simpl_file.
  destruct ((Type_ (FileHeader_ (Header f)) =? FVFileTypeRaw)
            && bytes_eqb (GUID (FileHeader_ (Header f))) NVAR) eqn:ER.
  - apply andb_true_iff in ER. destruct ER as [ER1 ER2].
    apply Z.eqb_eq in ER1. apply bytes_eqb_eq in ER2.
    destruct (slice_from _ _) as [body| |]; cbn [obind]; try discriminate.
    destruct (NewNVarStore body) as [ns e]. cbn [obind]. simpl_file.
    rewrite ER1.
    change (negb (SupportedFiles_at FVFileTypeRaw)) with true. cbv iota.
    intros X. injection X as <-. simpl_file. repeat split.
    + exists []. rewrite app_nil_r. auto.
    + right. auto.
  - cbn [obind]. simpl_file.
    destruct (SupportedFiles_at _) eqn:SF; cbn [negb].
    + intros X. apply parseSections_sections in X. simpl_file.
      destruct X as (X1 & X2 & X3 & new & X4 & X5).
      repeat split; try assumption; [|left; assumption].
      exists new. repeat split; try assumption. discriminate.
    + intros X. injection X as <-. simpl_file. repeat split; [|left; auto].
      exists []. rewrite app_nil_r. auto.
Qed.

(** What [NewFile] leaves in a file besides what [NewFile_shape] tells. *)
Lemma NewFile_children (b : list byte) (f : File) :
  NewFile b = Returns (Some f, None) ->
  Type_str f = FVFileType_String (Type_ (decode_FileHeader b)) /\
  ExtractPath f = EmptyString /\
  Forall (fun s => Section_ExtendedSize s <> 0) (Sections f) /\
  (SupportedFiles_at (Type_ (decode_FileHeader b)) = false ->
   Sections f = []) /\
  (NVarStore f = None \/
   (Type_ (decode_FileHeader b) = FVFileTypeRaw /\
    GUID (decode_FileHeader b) = NVAR)).
Proof.
  subst NewFile. unfold uefi.NewFile.
  destruct (binary_Read b 24) as [[hdr r]|e] eqn:R1; [|discriminate].
  apply binary_Read_inl in R1. destruct R1 as (-> & _ & _).
  rewrite <- (decode_FileHeader_firstn b). simpl_file.
  destruct (ThreeUint8_eqb _ _).
  - destruct (binary_Read r 8) as [[ext r']|e]; [|discriminate].
    destruct (_ =? _); [discriminate|].
    intros X. apply NewFile_body_children in X. unfold fh_of in X.
    simpl_file.
    destruct X as (X1 & X2 & (new & X3 & X4 & X5) & X6).
    rewrite X3. cbn [app]. auto 10.
  - intros X. apply NewFile_body_children in X. unfold fh_of in X.
    simpl_file.
    destruct X as (X1 & X2 & (new & X3 & X4 & X5) & X6).
    rewrite X3. cbn [app]. auto 10.
Qed.

Lemma NewFile_parsed_file_core :
  forall (b : list byte) (f : File),
    NewFile b = Returns (Some f, None) ->
    fh_of f = decode_FileHeader b
    /\ decoded_ExtendedSize b = Some (ExtendedSize (Header f))
    /\ buf f = firstn (Z.to_nat (ExtendedSize (Header f))) b
    /\ Z.of_nat (length (buf f)) = ExtendedSize (Header f)
    /\ DataOffset f =
       (if ThreeUint8_eqb (Size (fh_of f)) (0xFF, 0xFF, 0xFF) then 32 else 24)
    /\ Type_str f = FVFileType_String (Type_ (fh_of f)).
Proof.
  intros b f HN.
  destruct (NewFile_shape _ _ _ _ _ _ _ b f HN)
    as (hdr & r & E & R1 & D & HH & HD & HE & HB).
  destruct (NewFile_children b f HN) as (HT & _).
  apply binary_Read_inl in R1. destruct R1 as (-> & _ & _).
  rewrite decode_FileHeader_firstn in HH, HD.
  assert (fh_of f = decode_FileHeader b) as EF
    by (unfold fh_of; rewrite HH; reflexivity).
  assert (ExtendedSize (Header f) = E) as EE by (rewrite HH; reflexivity).
  rewrite EF, EE. repeat split; try assumption.
  rewrite HB, length_firstn. lia.
Qed.

(** X7.  What a parsed file holds.  When [NewFile] returns a file, its header
    is the one decoded from the first 24 bytes of the window, with the
    decoded extended size; its buffer is the first [ExtendedSize] bytes of
    the window, however long the window is; its data offset is 32 when the
    size field is [{0xFF,0xFF,0xFF}] and 24 otherwise, whatever the large
    bit says; and its type name is the name of its type code. *)
Theorem NewFile_parsed_file :
  forall (b : list byte) (f : File),
    NewFile b = Returns (Some f, None) ->
    fh_of f = decode_FileHeader b
    /\ decoded_ExtendedSize b = Some (ExtendedSize (Header f))
    /\ buf f = firstn (Z.to_nat (ExtendedSize (Header f))) b
    /\ Z.of_nat (length (buf f)) = ExtendedSize (Header f)
    /\ DataOffset f =
       (if ThreeUint8_eqb (Size (fh_of f)) (0xFF, 0xFF, 0xFF) then 32 else 24)
    /\ Type_str f = FVFileType_String (Type_ (fh_of f)).
Proof. exact NewFile_parsed_file_core. Qed.

(** X8.  A parsed file never has both a store and sections.  The store is
    only looked for in a raw file with the GUID of the NVRAM store, and a raw
    file is returned before the section walk. *)
Theorem NewFile_store_or_sections :
  forall (b : list byte) (f : File),
    NewFile b = Returns (Some f, None) ->
    (NVarStore f = None \/ Sections f = [])
    /\ (NVarStore f <> None ->
        Type_ (fh_of f) = FVFileTypeRaw /\ GUID (fh_of f) = NVAR).
Proof.
  intros b f HN.
  destruct (NewFile_parsed_file_core b f HN) as (EF & _).
  destruct (NewFile_children b f HN) as (_ & _ & _ & HS & HV).
  rewrite EF. split.
  - destruct HV as [HV|[HV _]]; [left; exact HV|].
    right. apply HS. rewrite HV. reflexivity.
  - intros NN. destruct HV as [HV|HV]; [congruence|exact HV].
Qed.

(** X9.  Every section of a parsed file reports a size other than zero, and
    a file whose type is not in [SupportedFiles], a PEIM or a pad file for
    one, has no section at all: its body is never handed to
    [NewSection]. *)
Theorem NewFile_sections :
  forall (b : list byte) (f : File),
    NewFile b = Returns (Some f, None) ->
    Forall (fun s => Section_ExtendedSize s <> 0) (Sections f)
    /\ (SupportedFiles_at (Type_ (fh_of f)) = false -> Sections f = [])
    /\ SupportedFiles_at FVFileTypePEIM = false
    /\ SupportedFiles_at FVFileTypePad = false
    /\ SupportedFiles_at FVFileTypeRaw = false.
Proof.
  intros b f HN.
  destruct (NewFile_parsed_file_core b f HN) as (EF & _).
  destruct (NewFile_children b f HN) as (_ & _ & HF & HS & _).
  rewrite EF. repeat split; assumption.
Qed.

(** [NewFile] looks at the window only through its length, compared with
    the extended size, and through its first [ExtendedSize] bytes. *)
Lemma NewFile_body_window (f : File) (b b' : list byte) :
  ExtendedSize (Header f) <= Z.of_nat (length b) ->
  ExtendedSize (Header f) <= Z.of_nat (length b') ->
  firstn (Z.to_nat (ExtendedSize (Header f))) b
  = firstn (Z.to_nat (ExtendedSize (Header f))) b' ->
  NewFile_body f b = NewFile_body f b'.
Proof.
  intros L L' EQ. subst NewFile_body. unfold uefi.NewFile_body.
  replace (Z.of_nat (length b) <? ExtendedSize (Header f)) with false
    by (symmetry; apply Z.ltb_ge; lia).
  replace (Z.of_nat (length b') <? ExtendedSize (Header f)) with false
    by (symmetry; apply Z.ltb_ge; lia).
  assert (slice_to b (ExtendedSize (Header f))
          = slice_to b' (ExtendedSize (Header f))) as ES.
  { unfold slice_to.
    replace (Z.of_nat (length b) <? ExtendedSize (Header f)) with false
      by (symmetry; apply Z.ltb_ge; lia).
    replace (Z.of_nat (length b') <? ExtendedSize (Header f)) with false
      by (symmetry; apply Z.ltb_ge; lia).
    rewrite EQ. reflexivity. }
  rewrite ES. reflexivity.
Qed.

Lemma binary_Read_enough (r : list byte) (n : nat) :
  (0 < n <= length r)%nat -> binary_Read r n = inl (firstn n r, skipn n r).
Proof.
  intros H. unfold binary_Read. destruct r as [|x r]; [cbn in H; lia|].
  replace (length (x :: r) <? n)%nat with false
    by (symmetry; apply Nat.ltb_ge; lia).
  reflexivity.
Qed.

(** X10.  [NewFile] reads nothing beyond the file: when the decoded extended
    size covers the header and fits the window, the result on the window is
    the result on its first [ExtendedSize] bytes. *)
Theorem NewFile_ignores_trailing_bytes :
  forall (b : list byte) (E : Z),
    decoded_ExtendedSize b = Some E ->
    (if ThreeUint8_eqb (Size (decode_FileHeader b)) (0xFF, 0xFF, 0xFF)
     then 32 else 24) <= E <= Z.of_nat (length b) ->
    NewFile (firstn (Z.to_nat E) b) = NewFile b.
Proof.
  intros b E D HE.
  assert (24 <= E) as H24 by (destruct (ThreeUint8_eqb _ _); lia).
  set (b' := firstn (Z.to_nat E) b).
  assert (length b' = Z.to_nat E) as LB'
    by (subst b'; rewrite length_firstn; lia).
  assert (firstn 24 b' = firstn 24 b) as F24.
  { subst b'. rewrite firstn_firstn. f_equal. lia. }
  unfold decoded_ExtendedSize in D.
  subst NewFile. unfold uefi.NewFile.
  rewrite (binary_Read_enough b 24) in * by lia.
  rewrite (binary_Read_enough b' 24) by lia.
  rewrite F24. simpl_file. rewrite decode_FileHeader_firstn in *.
  destruct (ThreeUint8_eqb _ _) eqn:TE.
  - assert (firstn 8 (skipn 24 b') = firstn 8 (skipn 24 b)) as F8.
    { subst b'. rewrite skipn_firstn_comm, firstn_firstn. f_equal. lia. }
    assert (length (skipn 24 b) >= 8)%nat as L8 by (rewrite length_skipn; lia).
    assert (length (skipn 24 b') >= 8)%nat as L8'
      by (rewrite length_skipn; lia).
    rewrite (binary_Read_enough (skipn 24 b) 8) in * by lia.
    rewrite (binary_Read_enough (skipn 24 b') 8) by lia.
    rewrite F8. simpl_file.
    assert (le_decode (firstn 8 (skipn 24 b)) = E) as D' by congruence.
    rewrite D'.
    destruct (E =? 0xFFFFFFFFFFFFFFFF); [reflexivity|].
    fold NewFile_body. apply NewFile_body_window; simpl_file; try lia.
    subst b'. rewrite firstn_firstn. f_equal. lia.
  - assert (Read3Size (Size (decode_FileHeader b)) = E) as D' by congruence.
    rewrite D'.
    fold NewFile_body. apply NewFile_body_window; simpl_file; try lia.
    subst b'. rewrite firstn_firstn. f_equal. lia.
Qed.

Lemma decoded_ExtendedSize_nonneg (b : list byte) (E : Z) :
  decoded_ExtendedSize b = Some E -> 0 <= E.
Proof.
  unfold decoded_ExtendedSize.
  destruct (binary_Read b 24) as [[hdr r]|e]; [|discriminate].
  destruct (ThreeUint8_eqb _ _).
  - destruct (binary_Read r 8) as [[ext r']|e]; [|discriminate].
    intros X. injection X as <-. apply le_decode_range.
  - intros X.
    assert (E = Read3Size (Size (decode_FileHeader hdr))) as ->
      by congruence.
    unfold decode_FileHeader, Read3Size. cbn [Size].
    pose proof (byte_at_range hdr 20). pose proof (byte_at_range hdr 21).
    pose proof (byte_at_range hdr 22). lia.
Qed.

Lemma Align4_nonneg x : 0 <= Align4 x.
Proof. unfold Align4, u64. apply Z.mod_pos_bound. lia. Qed.

Lemma parseSections_no_panic fuel : forall (f : File) i offset,
  0 <= offset ->
  ExtendedSize (Header f) <= Z.of_nat (length (buf f)) ->
  parseSections fuel f i offset <> Panics.
Proof.
  subst parseSections.
  induction fuel as [|fuel IH]; intros f i offset HO HE;
    cbn [uefi.parseSections];
    destruct (offset <? ExtendedSize (Header f)) eqn:LT; try discriminate.
  apply Z.ltb_lt in LT. unfold slice_from.
  replace (offset <? 0) with false by (symmetry; apply Z.ltb_ge; lia).
  replace (Z.of_nat (length (buf f)) <? offset) with false
    by (symmetry; apply Z.ltb_ge; lia).
  cbn [orb obind].
  destruct (NewSection _ i) as [s|e]; [|discriminate].
  destruct (Section_ExtendedSize s =? 0); [discriminate|].
  apply IH; simpl_file; [apply Align4_nonneg|exact HE].
Qed.

Lemma NewFile_body_panics (f : File) (b : list byte) :
  Z.of_nat (length b) < 2 ^ 63 ->
  0 <= ExtendedSize (Header f) -> 0 <= DataOffset f ->
  (NewFile_body f b = Panics <->
   ExtendedSize (Header f) <= Z.of_nat (length b)
   /\ Type_ (fh_of f) = FVFileTypeRaw /\ GUID (fh_of f) = NVAR
   /\ ExtendedSize (Header f) < DataOffset f).
Proof.
  intros HL HE HD. subst NewFile_body. unfold uefi.NewFile_body, fh_of.
  destruct (Z.of_nat (length b) <? ExtendedSize (Header f)) eqn:LT.
  { apply Z.ltb_lt in LT. split; [discriminate|]. intros (C & _). lia. }
  apply Z.ltb_ge in LT.
  rewrite (bound_buffer b _ (conj HE LT) ltac:(lia)). cbn [obind]. simpl_file.
  destruct ((Type_ (FileHeader_ (Header f)) =? FVFileTypeRaw)
            && bytes_eqb (GUID (FileHeader_ (Header f))) NVAR) eqn:ER.
  - apply andb_true_iff in ER. destruct ER as [ER1 ER2].
    apply Z.eqb_eq in ER1. apply bytes_eqb_eq in ER2.
    unfold slice_from. rewrite length_firstn.
    replace (DataOffset f <? 0) with false by (symmetry; apply Z.ltb_ge; lia).
    cbn [orb].
    destruct (Z.of_nat (Nat.min (Z.to_nat (ExtendedSize (Header f)))
                          (length b)) <? DataOffset f) eqn:LD.
    + apply Z.ltb_lt in LD. cbn [obind]. split; [|reflexivity].
      intros _. repeat split; try assumption. lia.
    + apply Z.ltb_ge in LD. cbn [obind].
      destruct (NewNVarStore _) as [ns e]. cbn [obind]. simpl_file.
      rewrite ER1.
      change (negb (SupportedFiles_at FVFileTypeRaw)) with true. cbv iota.
      split; [discriminate|]. intros (_ & _ & _ & C). lia.
  - cbn [obind]. simpl_file. split.
    + destruct (negb _); [discriminate|]. intros C. exfalso.
      revert C. apply parseSections_no_panic; simpl_file; [exact HD|].
      rewrite length_firstn. lia.
    + intros (_ & C1 & C2 & _). rewrite C1, C2 in ER.
      rewrite Z.eqb_refl in ER. cbn [andb] in ER.
      assert (bytes_eqb NVAR NVAR = true) as T by (apply bytes_eqb_eq; auto).
      congruence.
Qed.

(** X11.  [NewFile] panics on exactly one kind of window (of less than 2^63
    bytes): a raw file with the GUID of the NVRAM store whose extended size
    fits the window but is less than the length of its own header, 24 bytes,
    or 32 after the size [{0xFF,0xFF,0xFF}].  The slice [buf[DataOffset:]]
    handed to [NewNVarStore] is then out of range.  On every other window
    [NewFile] returns. *)
Theorem NewFile_panics_iff :
  forall b : list byte,
    Z.of_nat (length b) < 2 ^ 63 ->
    (NewFile b = Panics <->
     exists E,
       decoded_ExtendedSize b = Some E
       /\ E <= Z.of_nat (length b)
       /\ Type_ (decode_FileHeader b) = FVFileTypeRaw
       /\ GUID (decode_FileHeader b) = NVAR
       /\ E < (if ThreeUint8_eqb (Size (decode_FileHeader b))
                    (0xFF, 0xFF, 0xFF) then 32 else 24)).
Proof.
  intros b HL. subst NewFile. unfold uefi.NewFile, decoded_ExtendedSize.
  destruct (binary_Read b 24) as [[hdr r]|e] eqn:R1.
  2:{ split; [discriminate|]. intros (E & C & _). discriminate C. }
  pose proof R1 as R1'. apply binary_Read_inl in R1'.
  destruct R1' as (Hh & _ & _).
  assert (decode_FileHeader hdr = decode_FileHeader b) as EH
    by (rewrite Hh; apply decode_FileHeader_firstn).
  simpl_file. rewrite EH.
  destruct (ThreeUint8_eqb _ _) eqn:TE.
  - destruct (binary_Read r 8) as [[ext r']|e].
    2:{ split; [discriminate|]. intros (E & C & _). discriminate C. }
    simpl_file. pose proof (le_decode_range ext) as RE.
    destruct (le_decode ext =? 0xFFFFFFFFFFFFFFFF) eqn:FS.
    { apply Z.eqb_eq in FS. split; [discriminate|].
      intros (E & C & C2 & _). injection C as <-. lia. }
    fold NewFile_body. rewrite NewFile_body_panics; simpl_file;
      try lia; [|unfold FileHeaderExtMinLength; lia].
    unfold fh_of. simpl_file. unfold FileHeaderExtMinLength. split.
    + intros (C1 & C2 & C3 & C4). exists (le_decode ext). auto.
    + intros (E & C & C1 & C2 & C3 & C4). injection C as <-. auto.
  - assert (0 <= Read3Size (Size (decode_FileHeader b))) as RE.
    { apply (decoded_ExtendedSize_nonneg b). unfold decoded_ExtendedSize.
      rewrite R1, EH, TE. reflexivity. }
    fold NewFile_body. rewrite NewFile_body_panics; simpl_file;
      try lia; [|unfold FileHeaderMinLength; lia].
    unfold fh_of. simpl_file. unfold FileHeaderMinLength. split.
    + intros (C1 & C2 & C3 & C4).
      exists (Read3Size (Size (decode_FileHeader b))). auto.
    + intros (E & C & C1 & C2 & C3 & C4). injection C as <-. auto.
Qed.

End ParseMore.

Lemma NewFile_truncated_witness :
  (length (firstn 10 example_driver_bytes) < 24)%nat /\
  example_NewFile (firstn 10 example_driver_bytes)
  = Returns (None, Some ErrUnexpectedEOF).
Proof.
  split; [cbn; lia|].
  exact (proj1 (NewFile_truncated Z (fun s => s) unit example_NewSection
                  example_NewNVarStore example_NVAR false
                  (firstn 10 example_driver_bytes)) ltac:(cbn; lia)).
Defined.

Lemma CreatePadFile_NewFile_witness :
  exists f g : File Z unit,
    CreatePadFile Z unit 0xFF 40 = Returns (Some f, None)
    /\ example_NewFile (buf f) = Returns (Some g, None)
    /\ buf g = buf f.
Proof.
  assert (exists f : File Z unit,
             CreatePadFile Z unit 0xFF 40 = Returns (Some f, None))
    as (f & HC) by (eexists; vm_compute; reflexivity).
  destruct (CreatePadFile_NewFile Z (fun s => s) unit example_NewSection
              example_NewNVarStore example_NVAR false 0xFF 40 f
              ltac:(lia) ltac:(lia) ltac:(lia) HC)
    as (g & H1 & _ & H3 & _).
  exists f, g. auto.
Defined.

Lemma NewFile_parsed_file_witness :
  exists f,
    example_NewFile (example_driver_bytes ++ [Byte.xff; Byte.xff])
    = Returns (Some f, None)
    /\ buf f = example_driver_bytes.
Proof.
  assert (exists f,
             example_NewFile (example_driver_bytes ++ [Byte.xff; Byte.xff])
             = Returns (Some f, None))
    as (f & HN) by (eexists; vm_compute; reflexivity).
  exists f. split; [exact HN|].
  destruct (NewFile_parsed_file Z (fun s => s) unit example_NewSection
              example_NewNVarStore example_NVAR false _ f HN)
    as (_ & HD & HB & _).
  rewrite HB.
  assert (decoded_ExtendedSize (example_driver_bytes ++ [Byte.xff; Byte.xff])
          = Some 44) as D by reflexivity.
  assert (ExtendedSize (Header f) = 44) as -> by congruence.
  reflexivity.
Defined.

Lemma NewFile_store_or_sections_witness :
  exists f,
    example_NewFile example_driver_bytes = Returns (Some f, None)
    /\ (NVarStore f = None \/ Sections f = []).
Proof.
  assert (exists f,
             example_NewFile example_driver_bytes = Returns (Some f, None))
    as (f & HN) by (eexists; vm_compute; reflexivity).
  exists f. split; [exact HN|].
  exact (proj1 (NewFile_store_or_sections Z (fun s => s) unit
                  example_NewSection example_NewNVarStore example_NVAR false
                  _ f HN)).
Defined.

Lemma NewFile_sections_witness :
  exists f,
    example_NewFile example_driver_bytes = Returns (Some f, None)
    /\ Forall (fun s => s <> 0) (Sections f).
Proof.
  assert (exists f,
             example_NewFile example_driver_bytes = Returns (Some f, None))
    as (f & HN) by (eexists; vm_compute; reflexivity).
  exists f. split; [exact HN|].
  exact (proj1 (NewFile_sections Z (fun s => s) unit example_NewSection
                  example_NewNVarStore example_NVAR false _ f HN)).
Defined.

Lemma NewFile_ignores_trailing_bytes_witness :
  example_NewFile
    (firstn 44 (example_driver_bytes ++ [Byte.xff; Byte.xff]))
  = example_NewFile (example_driver_bytes ++ [Byte.xff; Byte.xff]).
Proof.
  exact (NewFile_ignores_trailing_bytes Z (fun s => s) unit example_NewSection
           example_NewNVarStore example_NVAR false
           (example_driver_bytes ++ [Byte.xff; Byte.xff]) 44 eq_refl
           ltac:(cbn; lia)).
Defined.

Lemma NewFile_panics_iff_witness :
  Z.of_nat (length example_short_store) < 2 ^ 63 /\
  example_NewFile example_short_store = Panics.
Proof.
  split; [cbn; lia|].
  apply (proj2 (NewFile_panics_iff Z (fun s => s) unit example_NewSection
                  example_NewNVarStore example_NVAR false example_short_store
                  ltac:(cbn; lia))).
  exists 5. repeat split; cbn; lia.
Defined.


Lemma firstn_repeat_le (c : byte) (k n : nat) :
  (k <= n)%nat -> firstn k (repeat c n) = repeat c k.
Proof.
  revert n. induction k as [|k IH]; intros n H; [reflexivity|].
  destruct n as [|n]; [lia|]. cbn [repeat firstn]. rewrite IH by lia.
  reflexivity.
Qed.

(** The size left out above.  At [0xFFFFFF] the size field is the sentinel
    while the large bit is clear, so the parser takes the extended size from
    the first 8 bytes of the padding: with polarity [0xFF] it reads the pad
    file as the start of the free space. *)
Lemma CreatePadFile_sentinel_size :
  forall (Section_ : Type) (Section_ExtendedSize : Section_ -> Z)
         (NVarStore_ : Type)
         (NewSection : list byte -> Z -> Section_ + error)
         (NewNVarStore : list byte -> option NVarStore_ * option error)
         (NVAR : GUID_t) (ReadOnly : bool) (size : Z)
         (f : File Section_ NVarStore_),
    size = 0xFFFFFF ->
    CreatePadFile Section_ NVarStore_ 0xFF size = Returns (Some f, None) ->
    IsLarge (Attributes (fh_of f)) = false
    /\ Size (fh_of f) = (0xFF, 0xFF, 0xFF)
    /\ NewFile Section_ Section_ExtendedSize NVarStore_ NewSection
         NewNVarStore NVAR ReadOnly (buf f) = Returns (None, None).
Proof.
  intros S_ SE N_ NS NN NVAR RO size f Hsize HC.
  assert (24 <= size < 2 ^ 63) as HS by lia.
  assert ((0xFFFFFF <? size) = false) as HL by (apply Z.ltb_ge; lia).
  assert (Write3Size size = (0xFF, 0xFF, 0xFF)) as HW
    by (rewrite Hsize; reflexivity).
  destruct (CreatePadFile_any_size_core S_ N_ 0xFF size HS)
    as (f0 & HC0 & HLen & HHL & HBody & _ & _ & _ & HA & _ & HSz & _).
  rewrite HC in HC0.
  assert (f0 = f) as -> by (symmetry; congruence). clear HC0.
  rewrite CreatePadFile_assembles in HC by exact HS.
  rewrite HL in *. rewrite HW in HSz. rewrite HHL in HBody.
  set (n := Z.to_nat (size - 24)) in *.
  assert (8 <= n)%nat as Hn by (subst n; lia).
  clearbody n.
  destruct (ChecksumAndAssemble _ _) as [[f1 [e|]]| |] eqn:HAs;
    cbn [obind] in HC; try discriminate.
  assert (f1 = f) as -> by congruence. clear HC.
  apply ChecksumAndAssemble_decodes_core in HAs.
  2: { unfold header_in_range, is_uint8. simpl_file.
       rewrite HW. cbv. repeat split; congruence. }
  2: { simpl_file. lia. }
  destruct HAs as (HD & _ & _).
  split; [rewrite HA; reflexivity|]. split; [exact HSz|].
  unfold slice_from in HBody.
  destruct (_ || _); [discriminate|].
  assert (skipn (Z.to_nat 24) (buf f) = repeat (z2b 0xFF) n) as HB'
    by congruence.
  clear HBody.
  unfold NewFile. rewrite (binary_Read_enough (buf f) 24) by lia.
  simpl_file. rewrite decode_FileHeader_firstn, HD, HSz.
  change (ThreeUint8_eqb (0xFF, 0xFF, 0xFF) (0xFF, 0xFF, 0xFF)) with true.
  cbv iota. change (Z.to_nat 24) with 24%nat in HB'. rewrite HB'.
  rewrite binary_Read_enough by (rewrite repeat_length; lia).
  simpl_file. rewrite firstn_repeat_le by exact Hn. reflexivity.
Qed.

(** X12.  The section walk ends.  When sections report their size on 32
    bits and the window has less than 2^63 bytes, every round moves the
    offset forward, so [NewFile] returns or panics within one round per byte
    of the file. *)
Theorem NewFile_terminates :
  forall (Section_ : Type) (Section_ExtendedSize : Section_ -> Z)
         (NVarStore_ : Type)
         (NewSection : list byte -> Z -> Section_ + error)
         (NewNVarStore : list byte -> option NVarStore_ * option error)
         (NVAR : GUID_t) (ReadOnly : bool) (b : list byte),
    (forall s, 0 <= Section_ExtendedSize s < 2 ^ 32) ->
    Z.of_nat (length b) < 2 ^ 63 ->
    (exists r,
        NewFile Section_ Section_ExtendedSize NVarStore_ NewSection
          NewNVarStore NVAR ReadOnly b = Returns r)
    \/ NewFile Section_ Section_ExtendedSize NVarStore_ NewSection
         NewNVarStore NVAR ReadOnly b = Panics.
Proof.
  intros S_ SE N_ NS NN NVAR RO b HR HL.
  pose proof (NewFile_fuel S_ SE N_ NS NN NVAR RO HR b HL) as NF.
  destruct (NewFile _ _ _ _ _ _ _ b) as [r| |].
  - left. exists r. reflexivity.
  - right. reflexivity.
  - congruence.
Qed.

Lemma NewFile_terminates_witness :
  exists f,
    example_NewFile4 example_driver_bytes = Returns (Some f, None)
    /\ length (Sections f) = 5%nat.
Proof.
  destruct (NewFile_terminates unit (fun _ => 4) unit (fun _ _ => inl tt)
              example_NewNVarStore example_NVAR true example_driver_bytes
              ltac:(intros; lia) ltac:(cbn; lia)) as [[r Hr]|Hp].
  - eexists. split; vm_compute; reflexivity.
  - vm_compute in Hp. discriminate Hp.
Defined.

(** ** Type names *)

(** X13.  Type names tell type codes apart.  Of the 256 codes, exactly 0 and
    those from [0x10] to [0xBF] have no name and print as [UNKNOWN]; any two
    other codes print differently, the pad type [0xF0] apart from the FFS
    range it opens. *)
Theorem FVFileType_String_names :
  forall a b : FVFileType,
    0 <= a < 256 -> 0 <= b < 256 ->
    (FVFileType_String a = "UNKNOWN"%string <-> a = 0 \/ 16 <= a < 0xC0)
    /\ (FVFileType_String a = FVFileType_String b ->
        a = b \/ FVFileType_String a = "UNKNOWN"%string).
Proof.
  intros a b Ha Hb.
  pose proof (forall_uint8 type_name_checks ltac:(vm_compute; reflexivity)
                a Ha) as C.
  unfold type_name_checks in C. apply andb_true_iff in C.
  destruct C as [C1 C2]. apply Bool.eqb_prop in C1. split.
  - rewrite <- String.eqb_eq, C1, orb_true_iff, andb_true_iff, Z.eqb_eq,
      Z.leb_le, Z.ltb_lt. tauto.
  - intros E. rewrite forallb_forall in C2.
    specialize (C2 (Z.to_nat b) ltac:(apply in_seq; lia)). cbv zeta in C2.
    rewrite Z2Nat.id in C2 by lia.
    apply String.eqb_eq in E. rewrite E in C2. cbn [implb] in C2.
    apply orb_true_iff in C2. destruct C2 as [C2|C2].
    + left. apply Z.eqb_eq. exact C2.
    + right. apply String.eqb_eq. exact C2.
Qed.

Lemma FVFileType_String_names_witness :
  0 <= 0x20 < 256 /\ FVFileType_String 0x20 = "UNKNOWN"%string.
Proof.
  split; [lia|].
  apply (proj1 (FVFileType_String_names 0x20 0x20 ltac:(lia) ltac:(lia))).
  right. lia.
Defined.

(** ** The reverse table *)

Lemma NamesToFileType_init_rev (entries : list (FVFileType * string)) :
  NamesToFileType_init entries = rev (map trimmed entries).
Proof.
  unfold NamesToFileType_init.
  assert (forall acc,
             fold_left
               (fun m '(k, v) => smap_set m (TrimPrefix v "EFI_FV_FILETYPE_") k)
               entries acc = rev (map trimmed entries) ++ acc) as G.
  { induction entries as [|[k v] entries IH]; intros acc; [reflexivity|].
    cbn [fold_left map rev]. rewrite IH, <- app_assoc. reflexivity. }
  rewrite G. apply app_nil_r.
Qed.

Lemma smap_get_In {V : Type} (m : list (string * V)) (s : string) (v : V) :
  smap_get m s = Some v -> In (s, v) m.
Proof.
  induction m as [|[k' v'] m IH]; cbn [smap_get]; [discriminate|].
  destruct (String.eqb k' s) eqn:E.
  - apply String.eqb_eq in E. intros X. injection X as <-. left. congruence.
  - intros X. right. apply IH. exact X.
Qed.

Lemma smap_get_NoDup {V : Type} (m : list (string * V)) (s : string) (v : V) :
  NoDup (map fst m) -> In (s, v) m -> smap_get m s = Some v.
Proof.
  induction m as [|[k' v'] m IH]; cbn [smap_get map fst]; [intros _ []|].
  intros ND [HI|HI].
  - injection HI as -> ->. rewrite String.eqb_refl. reflexivity.
  - inversion ND as [|? ? NI ND']; subst.
    destruct (String.eqb k' s) eqn:E; [|apply IH; assumption].
    apply String.eqb_eq in E. subst. exfalso. apply NI.
    apply (in_map fst) in HI. exact HI.
Qed.

Lemma trimmed_names_NoDup : NoDup (map fst (map trimmed fileTypeNames)).
Proof.
  vm_compute. repeat constructor; cbn [In]; intuition discriminate.
Qed.

Lemma fileTypeNames_String (k : FVFileType) (name : string) :
  In (k, name) fileTypeNames ->
  FVFileType_String k = name
  /\ name = String.append "EFI_FV_FILETYPE_" (TrimPrefix name "EFI_FV_FILETYPE_").
Proof.
  unfold fileTypeNames. cbn [In].
  intuition (match goal with H : (_, _) = (_, _) |- _ =>
                               injection H as <- <- end; reflexivity).
Qed.

(** X14.  [NamesToFileType] inverts the type names, in whatever order Go
    ranges over [fileTypeNames]: the name of each named type, less its prefix
    [EFI_FV_FILETYPE_], is mapped to that type, and every key of the map is
    such a name. *)
Theorem NamesToFileType_inverts_names :
  forall entries : list (FVFileType * string),
    Permutation entries fileTypeNames ->
    (forall k name,
        In (k, name) fileTypeNames ->
        FVFileType_String k = name /\
        smap_get (NamesToFileType_init entries)
          (TrimPrefix name "EFI_FV_FILETYPE_") = Some k)
    /\ (forall s k,
           smap_get (NamesToFileType_init entries) s = Some k ->
           FVFileType_String k = String.append "EFI_FV_FILETYPE_" s).
Proof.
  intros entries HP. rewrite NamesToFileType_init_rev.
  assert (Permutation (rev (map trimmed entries)) (map trimmed fileTypeNames))
    as HP'.
  { eapply Permutation_trans; [apply Permutation_sym, Permutation_rev|].
    apply Permutation_map. exact HP. }
  split.
  - intros k name HI. split; [apply fileTypeNames_String; exact HI|].
    apply smap_get_NoDup.
    + eapply Permutation_NoDup; [|apply trimmed_names_NoDup].
      apply Permutation_sym, Permutation_map. exact HP'.
    + eapply Permutation_in; [apply Permutation_sym; exact HP'|].
      apply (in_map trimmed) in HI. exact HI.
  - intros s k HG. apply smap_get_In in HG.
    eapply Permutation_in in HG; [|exact HP'].
    apply in_map_iff in HG. destruct HG as ([k' name] & ET & HI).
    cbn [trimmed] in ET. injection ET as <- <-.
    destruct (fileTypeNames_String k' name HI) as [E1 E2]. congruence.
Qed.

Lemma NamesToFileType_inverts_names_witness :
  smap_get (NamesToFileType_init (rev fileTypeNames)) "DRIVER" = Some 7.
Proof.
  exact (proj2 (proj1 (NamesToFileType_inverts_names (rev fileTypeNames)
                         (Permutation_sym (Permutation_rev fileTypeNames)))
                  7 "EFI_FV_FILETYPE_DRIVER"%string
                  ltac:(cbn; tauto))).
Defined.

(** ** Visiting the children *)

Section VisitFacts.

Variables Section_ NVarStore_ Visitor : Type.
Variable Section_Apply : Section_ -> Visitor -> Visitor * option error.
Variable NVarStore_Apply : NVarStore_ -> Visitor -> Visitor * option error.

Let apply_sections := (apply_sections Section_ Visitor Section_Apply).
Let ApplyChildren :=
  (ApplyChildren Section_ NVarStore_ Visitor Section_Apply NVarStore_Apply).

Lemma apply_sections_app (pre post : list Section_) (v : Visitor) :
  apply_sections (pre ++ post) v =
  match apply_sections pre v with
  | (v1, None) => apply_sections post v1
  | r => r
  end.
Proof.
  subst apply_sections. revert v.
  induction pre as [|s pre IH]; intros v; cbn [app uefi_more.apply_sections];
    [reflexivity|].
  destruct (Section_Apply s v) as [v1 [e|]]; [reflexivity|]. apply IH.
Qed.

Lemma apply_sections_error (ss : list Section_) (v v' : Visitor) (e : error) :
  apply_sections ss v = (v', Some e) ->
  exists pre s post v1,
    ss = pre ++ s :: post /\
    apply_sections pre v = (v1, None) /\
    Section_Apply s v1 = (v', Some e).
Proof.
  subst apply_sections. revert v.
  induction ss as [|s ss IH]; intros v; cbn [uefi_more.apply_sections];
    [discriminate|].
  destruct (Section_Apply s v) as [v1 [e1|]] eqn:ES.
  - intros X. injection X as <- <-. exists [], s, ss, v. auto.
  - intros X. apply IH in X.
    destruct X as (pre & s' & post & v2 & -> & X1 & X2).
    exists (s :: pre), s', post, v2. cbn [app uefi_more.apply_sections].
    rewrite ES. auto.
Qed.

(** X15.  [ApplyChildren] shows the visitor the store when the file has one,
    and then no section, whatever the sections are.  Without a store it shows
    the sections in order and stops at the first that fails: the error
    returned is the error of that section, the visitor is as that section
    left it, and the sections after it are not visited.  It returns no error
    only when every section was visited without one. *)
Theorem ApplyChildren_order :
  forall (f : File Section_ NVarStore_) (v : Visitor),
    (forall ns, NVarStore f = Some ns ->
                ApplyChildren f v = NVarStore_Apply ns v)
    /\ (NVarStore f = None ->
        forall v' e,
          ApplyChildren f v = (v', Some e) ->
          exists pre s post v1,
            Sections f = pre ++ s :: post /\
            apply_sections pre v = (v1, None) /\
            Section_Apply s v1 = (v', Some e))
    /\ (NVarStore f = None ->
        forall v',
          ApplyChildren f v = (v', None) ->
          forall pre s post,
            Sections f = pre ++ s :: post ->
            exists v1 v2,
              apply_sections pre v = (v1, None) /\
              Section_Apply s v1 = (v2, None)).
Proof.
  intros f v. subst ApplyChildren. unfold uefi_more.ApplyChildren.
  split; [|split].
  - intros ns ->. destruct (NVarStore_Apply ns v) as [v1 [e|]]; reflexivity.
  - intros ->. intros v' e. apply apply_sections_error.
  - intros ->. intros v' HA pre s post HS. fold apply_sections in HA.
    rewrite HS, apply_sections_app in HA.
    destruct (apply_sections pre v) as [v1 [e|]] eqn:E1; [discriminate|].
    subst apply_sections. cbn [uefi_more.apply_sections] in HA.
    destruct (Section_Apply s v1) as [v2 [e|]] eqn:E2; [discriminate|].
    exists v1, v2. auto.
Qed.

End VisitFacts.

Lemma ApplyChildren_order_witness :
  exists f,
    example_NewFile example_driver_bytes = Returns (Some f, None)
    /\ ApplyChildren Z unit (list Z) example_Section_Apply
         example_NVarStore_Apply f []
       = ([5; 6], Some (ErrExternal "visit")).
Proof.
  assert (exists f,
             example_NewFile example_driver_bytes = Returns (Some f, None)
             /\ NVarStore f = None
             /\ ApplyChildren Z unit (list Z) example_Section_Apply
                  example_NVarStore_Apply f []
                = ([5; 6], Some (ErrExternal "visit")))
    as (f & HN & HV & HA)
    by (eexists; split; [|split]; vm_compute; reflexivity).
  exists f. split; [exact HN|].
  destruct (proj1 (proj2 (ApplyChildren_order Z unit (list Z)
                            example_Section_Apply example_NVarStore_Apply
                            f [])) HV _ _ HA)
    as (pre & s & post & v1 & _ & _ & _).
  exact HA.
Defined.

End uefi_more_spec.

(** * More properties of [payload.go] *)

Module cbfs_more_spec.
Import cbfs cbfs_spec.

Section ReadFacts.

Context {S : Type} {RS : ReadSeeker S}.
Variable SegEntry : SegmentType.
Variable Read_PayloadHeader : S -> S * (PayloadHeader * option error).

Let readSegments := (readSegments SegEntry Read_PayloadHeader).
Let Read := (Read SegEntry Read_PayloadHeader).


(** The loop left through an error: the segments read so far are kept, none
    of them of type [SegEntry], and nothing else is touched. *)
Lemma readSegments_error fuel : forall (in_ : S) p in' p' e,
  readSegments fuel in_ p = Returns (in', p', Some e) ->
  (exists news,
      Segs p' = Segs p ++ news /\
      Forall (fun x => PH_Type x <> SegEntry) news) /\
  File_ p' = File_ p /\ FData p' = FData p /\
  exists in0 h, Read_PayloadHeader in0 = (in', (h, Some e)).
Proof.
  subst readSegments.
  induction fuel as [|fuel IH]; intros in_ p in' p' e; cbn [cbfs.readSegments];
    [discriminate|].
  destruct (Read_PayloadHeader in_) as [in1 [h [e1|]]] eqn:ER.
  - intros X. injection X as <- <- <-. repeat split.
    + exists []. rewrite app_nil_r. auto.
    + exists in_, h. exact ER.
  - destruct (PH_Type h =? SegEntry) eqn:T; [discriminate|].
    apply Z.eqb_neq in T. intros X. apply IH in X.
    cbn [with_Segs Segs File_ FData] in X.
    destruct X as ((news & X1 & X2) & X3 & X4 & X5).
    repeat split; try assumption.
    exists (h :: news). rewrite X1, <- app_assoc. cbn [app]. auto.
Qed.


(** X17.  An error met before the body is read leaves the body of the record
    untouched.  When a header cannot be decoded, [Read] returns the error of
    the decoder as it is, keeping the segments decoded until then, none of
    them of type [SegEntry]; when the stream cannot tell its position, [Read]
    returns that error wrapped, keeping all the segments. *)
Theorem Read_early_errors :
  forall (fuel : nat) (in_ in1 : S) (p p1 : PayloadRecord),
    (forall e,
        readSegments fuel in_ p = Returns (in1, p1, Some e) ->
        Read fuel in_ p = Returns (in1, p1, Some e)
        /\ FData p1 = FData p /\ File_ p1 = File_ p
        /\ (exists news,
               Segs p1 = Segs p ++ news /\
               Forall (fun x => PH_Type x <> SegEntry) news)
        /\ exists in0 h, Read_PayloadHeader in0 = (in1, (h, Some e)))
    /\ (forall in2 offset e,
           readSegments fuel in_ p = Returns (in1, p1, None) ->
           rs_Seek in1 0 SeekCurrent = (in2, (offset, Some e)) ->
           Read fuel in_ p = Returns (in2, p1, Some (ErrFindingLocation e))
           /\ FData p1 = FData p).
Proof.
  intros fuel in_ in1 p p1. split.
  - intros e HS. split.
    + subst Read readSegments. unfold cbfs.Read. rewrite HS. reflexivity.
    + apply readSegments_error in HS.
      destruct HS as (X1 & X2 & X3 & X4). auto.
  - intros in2 offset e HS HK. split.
    + subst Read readSegments. unfold cbfs.Read. rewrite HS. cbn [obind].
      unfold readBody. rewrite HK. reflexivity.
    + apply readSegments_break in HS.
      destruct HS as (_ & _ & _ & _ & _ & _ & HF). exact HF.
Qed.

End ReadFacts.


(** A stream that ends inside its second header. *)
Lemma Read_early_errors_witness :
  Read example_SegEntry Reader_Read_PayloadHeader 3
    (mkReader (firstn 40 (s example_stream)) 0)
    (fst (NewPayloadRecord (example_File 58)))
  = Returns (mkReader (firstn 40 (s example_stream)) 40,
             mkPayloadRecord (example_File 58)
               [mkPayloadHeader 0x434F4445 0 0 0 0 0] [],
             Some ErrUnexpectedEOF).
Proof.
  exact (proj1 (proj1 (Read_early_errors example_SegEntry
                         Reader_Read_PayloadHeader 3
                         (mkReader (firstn 40 (s example_stream)) 0)
                         (mkReader (firstn 40 (s example_stream)) 40)
                         (fst (NewPayloadRecord (example_File 58)))
                         (mkPayloadRecord (example_File 58)
                            [mkPayloadHeader 0x434F4445 0 0 0 0 0] []))
                  ErrUnexpectedEOF eq_refl)).
Defined.

(** ** [Read] on a byte slice *)

Lemma readSegments_more_fuel {S : Type} {RS : ReadSeeker S} SegEntry Rh fuel :
  forall (in_ : S) p r k,
    readSegments SegEntry Rh fuel in_ p = Returns r ->
    readSegments SegEntry Rh (fuel + k) in_ p = Returns r.
Proof.
  induction fuel as [|fuel IH]; intros in_ p r k; cbn [readSegments Nat.add];
    [discriminate|].
  destruct (Rh in_) as [in1 [h [e|]]]; [auto|].
  destruct (PH_Type h =? SegEntry); [auto|]. apply IH.
Qed.

(** X18.  On a stream over a byte slice [Read] always returns: each round of
    its loop takes 28 bytes off the slice or leaves with an error, so the
    loop ends within one round more than the slice has bytes, and the result
    is the same however many more rounds are allowed. *)
Theorem Read_returns_on_Reader :
  forall (SegEntry : SegmentType) (r : Reader) (p : PayloadRecord),
    0 <= i r ->
    exists res,
      forall fuel : nat,
        (length (s r) < fuel)%nat ->
        Read SegEntry Reader_Read_PayloadHeader fuel r p = Returns res.
Proof.
  intros SegEntry r p H0.
  destruct (Reader_Read_returns SegEntry r p H0) as [res HR].
  exists res. intros fuel HF.
  replace fuel with (Datatypes.S (length (s r))
                     + (fuel - Datatypes.S (length (s r))))%nat by lia.
  unfold Read in *.
  destruct (readSegments SegEntry Reader_Read_PayloadHeader
              (Datatypes.S (length (s r))) r p) as [x| |] eqn:E;
    cbn [obind] in HR; try discriminate.
  rewrite (readSegments_more_fuel _ _ _ _ _ _ _ E). exact HR.
Qed.

Lemma Read_returns_on_Reader_witness :
  exists res,
    Read example_SegEntry Reader_Read_PayloadHeader 59 example_stream
      (example_record 58) = Returns res.
Proof.
  destruct (Read_returns_on_Reader example_SegEntry example_stream
              (example_record 58) ltac:(cbn; lia)) as [res HR].
  exists res. apply HR. cbn. lia.
Defined.

Lemma skipn_repeat (c : byte) (k n : nat) :
  skipn k (repeat c n) = repeat c (n - k).
Proof.
  revert n. induction k as [|k IH]; intros n.
  - now rewrite Nat.sub_0_r.
  - destruct n as [|n]; [reflexivity|]. cbn [repeat skipn Nat.sub]. apply IH.
Qed.

Section ReaderBody.

Variable SegEntry : SegmentType.
Variable Rh : Reader -> Reader * (PayloadHeader * option error).

(** X19.  The body of a record read from a byte slice.  When the slice goes
    on after the segments and the record declares more bytes than the
    segments took, the body has the declared length less the position: it is
    the bytes of the slice from the position on, and, should the slice end
    before the declared size, zero bytes after them.  The stream is left
    after the last byte taken. *)
Theorem Read_body_on_Reader :
  forall (fuel : nat) (r r1 : Reader) (p p1 : PayloadRecord),
    readSegments SegEntry Rh fuel r p = Returns (r1, p1, None) ->
    0 <= i r1 < Z.of_nat (length (s r1)) ->
    Z.of_nat (length (s r1)) < 2 ^ 63 ->
    0 <= Size (File_ p1) < 2 ^ 32 ->
    i r1 < Size (File_ p1) ->
    let bodySize := Z.to_nat (Size (File_ p1) - i r1) in
    let src := skipn (Z.to_nat (i r1)) (s r1) in
    Read SegEntry Rh fuel r p =
    Returns (mkReader (s r1) (i r1 + Z.of_nat (Nat.min bodySize (length src))),
             with_FData p1
               (firstn bodySize src
                ++ repeat Byte.x00 (bodySize - length src)),
             None).
Proof.
  intros fuel r r1 p p1 HS HI HL HZ HB bodySize src.
  unfold Read. rewrite HS. cbn [obind]. unfold readBody.
  cbn [rs_Seek rs_Read Reader_ReadSeeker]. unfold Reader_Seek.
  rewrite Z.add_0_r.
  replace (i r1 <? 0) with false by (symmetry; apply Z.ltb_ge; lia).
  rewrite (i64_small (Size (File_ p1))) by lia.
  rewrite i64_small by lia.
  replace (Size (File_ p1) - i r1 <? 0) with false
    by (symmetry; apply Z.ltb_ge; lia).
  replace (Size (File_ p1) - i r1 =? 0) with false
    by (symmetry; apply Z.eqb_neq; lia).
  unfold make_bytes.
  replace (Size (File_ p1) - i r1 <? 0) with false
    by (symmetry; apply Z.ltb_ge; lia).
  replace (2 ^ 63 <=? Size (File_ p1) - i r1) with false
    by (symmetry; apply Z.leb_gt; lia).
  cbn [orb obind]. unfold Reader_Read. cbn [s i].
  replace (Z.of_nat (length (s r1)) <=? i r1) with false
    by (symmetry; apply Z.leb_gt; lia).
  fold bodySize. fold src. rewrite repeat_length, skipn_repeat. reflexivity.
Qed.

(** X20.  When the slice ends with the segments and the record declares more
    bytes, the one read of the body fails: [Read] returns [io.EOF], having
    already replaced the body by the zero bytes it allocated. *)
Theorem Read_body_at_end_of_Reader :
  forall (fuel : nat) (r r1 : Reader) (p p1 : PayloadRecord),
    readSegments SegEntry Rh fuel r p = Returns (r1, p1, None) ->
    Z.of_nat (length (s r1)) <= i r1 < 2 ^ 63 ->
    0 <= Size (File_ p1) < 2 ^ 32 ->
    i r1 < Size (File_ p1) ->
    Read SegEntry Rh fuel r p =
    Returns (mkReader (s r1) (i r1),
             with_FData p1
               (repeat Byte.x00 (Z.to_nat (Size (File_ p1) - i r1))),
             Some EOF).
Proof.
  intros fuel r r1 p p1 HS HI HZ HB.
  unfold Read. rewrite HS. cbn [obind]. unfold readBody.
  cbn [rs_Seek rs_Read Reader_ReadSeeker]. unfold Reader_Seek.
  rewrite Z.add_0_r.
  replace (i r1 <? 0) with false by (symmetry; apply Z.ltb_ge; lia).
  rewrite (i64_small (Size (File_ p1))) by lia.
  rewrite i64_small by lia.
  replace (Size (File_ p1) - i r1 <? 0) with false
    by (symmetry; apply Z.ltb_ge; lia).
  replace (Size (File_ p1) - i r1 =? 0) with false
    by (symmetry; apply Z.eqb_neq; lia).
  unfold make_bytes.
  replace (Size (File_ p1) - i r1 <? 0) with false
    by (symmetry; apply Z.ltb_ge; lia).
  replace (2 ^ 63 <=? Size (File_ p1) - i r1) with false
    by (symmetry; apply Z.leb_gt; lia).
  cbn [orb obind]. unfold Reader_Read. cbn [s i].
  replace (Z.of_nat (length (s r1)) <=? i r1) with true
    by (symmetry; apply Z.leb_le; lia).
  reflexivity.
Qed.

End ReaderBody.

Lemma Read_body_on_Reader_witness :
  Read example_SegEntry Reader_Read_PayloadHeader 3 example_stream
    (fst (NewPayloadRecord (example_File 58)))
  = Returns (example_stream_at 58,
             with_FData (example_record 58) [Byte.x11; Byte.x22], None).
Proof.
  exact (Read_body_on_Reader example_SegEntry Reader_Read_PayloadHeader 3
           example_stream (example_stream_at 56)
           (fst (NewPayloadRecord (example_File 58))) (example_record 58)
           eq_refl ltac:(cbn; lia) ltac:(cbn; lia) ltac:(cbn; lia)
           ltac:(cbn; lia)).
Defined.

Lemma Read_body_at_end_of_Reader_witness :
  Read example_SegEntry Reader_Read_PayloadHeader 3
    (mkReader (firstn 56 (s example_stream)) 0)
    (fst (NewPayloadRecord (example_File 58)))
  = Returns (mkReader (firstn 56 (s example_stream)) 56,
             with_FData (example_record 58) [Byte.x00; Byte.x00], Some EOF).
Proof.
  exact (Read_body_at_end_of_Reader example_SegEntry Reader_Read_PayloadHeader
           3 (mkReader (firstn 56 (s example_stream)) 0)
           (mkReader (firstn 56 (s example_stream)) 56)
           (fst (NewPayloadRecord (example_File 58))) (example_record 58)
           eq_refl ltac:(cbn; lia) ltac:(cbn; lia) ltac:(cbn; lia)).
Defined.

End cbfs_more_spec.
